(** * Breakout: the vector algebra and the scene reducer

    A shallow embedding of [src/game/vector.js] and of the reducer of
    [src/components/scene.js].

    JavaScript numbers are IEEE-754 binary64 values.  The vector code is
    written once, over an interface [Number] of the arithmetic it uses, and
    the interface is implemented twice:

    - [float_Number]: Rocq's primitive binary64 floats, whose [+ - * /] and
      [sqrt] are the very operations a JavaScript engine performs;
    - [R_Number]: the real numbers, i.e. the same code read in exact
      arithmetic (used only where every divisor is known to be non-zero).

    Time stamps ([Date.now()]) and counters (lives, level index) are
    integral and far below 2^53, where binary64 arithmetic is exact; they
    are modelled as [Z].

    [rotate] needs a cosine and a sine, which binary64 leaves to the
    engine: it is written over a second interface, [Trig], implemented by
    the reals only.  Left out: [angleBetween] (an arc tangent of two
    arguments) and the component with its rendering. *)

From Stdlib Require Import ZArith Floats Reals Lra Lia Psatz Ascii.
From stdpp Require Import base option list gmap strings pretty.

Set Default Proof Using "Type".

(** ** The arithmetic the code uses *)

Class Number (num : Type) : Type := {
  nadd : num -> num -> num;
  nsub : num -> num -> num;
  nmul : num -> num -> num;
  ndiv : num -> num -> num;
  (** [Math.hypot(a, b)] *)
  Math_hypot : num -> num -> num;
  (** [Math.min(a, b)] *)
  Math_min : num -> num -> num;
  (** integer literals of the source text ([1], [2]) *)
  lit : Z -> num
}.

Declare Scope num_scope.
Delimit Scope num_scope with num.
Infix "+" := nadd : num_scope.
Infix "-" := nsub : num_scope.
Infix "*" := nmul : num_scope.
Infix "/" := ndiv : num_scope.

(** *** binary64 *)

Module Float64.
Import PrimFloat.

Definition of_Z (z : Z) : float :=
  match z with
  | Z0 => zero
  | Zpos p => of_uint63 (Uint63.of_pos p)
  | Zneg p => opp (of_uint63 (Uint63.of_pos p))
  end.

(** [Math.hypot] with two arguments.  ECMAScript fixes the result when an
    argument is infinite (+Infinity), else when one is NaN (NaN), else
    when both are zero (+0); otherwise the result is an
    implementation-approximated root of the sum of squares.  For that
    last case the model does as V8 does: scale by the largest magnitude,
    add the squares with a compensated sum, take the root and scale back.
    Unless it says otherwise, a statement below evaluates [hypot] only
    at inputs whose exact length is itself a binary64 number. *)
Definition hypot (a b : float) : float :=
  if (is_infinity a || is_infinity b)%bool then infinity
  else if (is_nan a || is_nan b)%bool then nan
  else
    let a' := abs a in
    let b' := abs b in
    let max := if ltb zero a' then a' else zero in
    let max := if ltb max b' then b' else max in
    if eqb max zero then zero
    else
      let n := div a' max in
      let summand := mul n n in
      let sum := add zero summand in
      let compensation := sub (sub sum zero) summand in
      let n := div b' max in
      let summand := sub (mul n n) compensation in
      let sum := add sum summand in
      mul (sqrt sum) max.

(** [Math.min] with two arguments: NaN if either is NaN, and -0 is
    smaller than +0. *)
Definition min (a b : float) : float :=
  if (is_nan a || is_nan b)%bool then nan
  else if ltb a b then a
  else if ltb b a then b
  else if get_sign a then a else b.
End Float64.

#[export] Instance float_Number : Number float := {
  nadd := PrimFloat.add;
  nsub := PrimFloat.sub;
  nmul := PrimFloat.mul;
  ndiv := PrimFloat.div;
  Math_hypot := Float64.hypot;
  Math_min := Float64.min;
  lit := Float64.of_Z
}.

(** *** exact arithmetic *)

#[export] Instance R_Number : Number R := {
  nadd := Rplus;
  nsub := Rminus;
  nmul := Rmult;
  ndiv := Rdiv;
  Math_hypot := fun a b => sqrt (a * a + b * b)%R;
  Math_min := Rmin;
  lit := IZR
}.

(** [Math.cos] and [Math.sin] *)
Class Trig (num : Type) : Type := {
  Math_cos : num -> num;
  Math_sin : num -> num
}.

#[export] Instance R_Trig : Trig R := {
  Math_cos := cos;
  Math_sin := sin
}.

(** ** [src/game/vector.js] *)

Module Vector.

(** [new Vector(x, y)] *)
Record t (num : Type) : Type := new { x : num; y : num }.
Arguments new {num} x y.
Arguments x {num} _.
Arguments y {num} _.

Section Methods.
Context {num : Type} `{Number num}.
Local Open Scope num_scope.

Definition scaleBy (this : t num) (number : num) : t num :=
  new (x this * number) (y this * number).

Definition length (this : t num) : num :=
  Math_hypot (x this) (y this).

Definition add (this other : t num) : t num :=
  new (x this + x other) (y this + y other).

Definition normalize (this : t num) : t num :=
  scaleBy this (lit 1 / length this).

Definition subtract (this other : t num) : t num :=
  new (x this - x other) (y this - y other).

Definition dotProduct (this other : t num) : num :=
  x this * x other + y this * y other.

Definition projectOn (this other : t num) : t num :=
  let amt := dotProduct this other / length other in
  new (amt * x other) (amt * y other).

Definition reflect (this normal : t num) : t num :=
  subtract this (scaleBy (projectOn this normal) (lit 2)).

Definition crossProduct (this other : t num) : num :=
  x this * y other - x other * y this.
End Methods.

Section Rotation.
Context {num : Type} `{Number num} `{Trig num}.
Local Open Scope num_scope.

(** [toRadians] of [utils], which is not among the sources *)
Variable toRadians : num -> num.

Definition rotate (this : t num) (degrees : num) : t num :=
  let radians := toRadians degrees in
  let cos := Math_cos radians in
  let sin := Math_sin radians in
  new (x this * cos - y this * sin) (x this * sin + y this * cos).
End Rotation.

End Vector.

(** ** [src/components/scene.js]: the reducer *)

Module Scene.

(** Modelled from the spec: the [MOVEMENT] constants of [game/core],
    which is not among the sources ("Movement: enumerated LEFT, RIGHT,
    NONE"); no movement is [undefined] in the scene's state, here
    [None]. *)
Inductive Movement : Type := LEFT | RIGHT.

Module MOVEMENT_KEYS.
Definition LEFT : list Z := [65; 37]%Z.
Definition RIGHT : list Z := [68; 39]%Z.
End MOVEMENT_KEYS.

Definition STOP_KEY : Z := 32.

Module ACTION.
Definition CONTAINER_SIZE_CHANGE : string := "CONTAINER_SIZE_CHANGE".
Definition KEY_DOWN : string := "KEY_DOWN".
Definition KEY_UP : string := "KEY_UP".
Definition TICK : string := "TICK".
End ACTION.

(** *** The environment a handler runs in

    [Date.now()] reads the clock, [localStorage.setItem] writes the
    store, and a call may raise.  A handler is a function from the world
    to an outcome: [None] when it raises, else its value and the world
    it leaves.  (The reducer has one more way to give no state back: see
    [Object_prototype].) *)
Record World : Type := mkWorld {
  clock : Z;
  localStorage : gmap string string
}.

Definition Eff (A : Type) : Type := World -> option (A * World).

Definition ret {A} (a : A) : Eff A := fun w => Some (a, w).

Definition bind {A B} (m : Eff A) (k : A -> Eff B) : Eff B :=
  fun w => match m w with
           | Some (a, w') => k a w'
           | None => None
           end.

Definition throw {A} : Eff A := fun _ => None.

(** the outcome of a call that either returns or raises *)
Definition call {A} (r : option A) : Eff A :=
  fun w => match r with Some a => Some (a, w) | None => None end.

Definition Date_now : Eff Z := fun w => Some (clock w, w).

(** [localStorage.setItem(key, value)]: the value is stored as its
    string, [String(value)]. *)
Definition localStorage_setItem (key : string) (value : Z) : Eff unit :=
  fun w => Some (tt, mkWorld (clock w) (<[key := pretty value]> (localStorage w))).

Notation "'let*' a ':=' m 'in' k" := (bind m (fun a => k))
  (at level 10, a name, m at level 100, k at level 200, only parsing).

(** [if (v)] on a value that is [undefined] or a number *)
Definition truthy (v : option Z) : bool :=
  match v with
  | Some n => negb (n =? 0)%Z
  | None => false
  end.

(** [localStorage.getItem(key)]: the stored string, or [null] *)
Definition localStorage_getItem (key : string) : Eff (option string) :=
  fun w => Some (localStorage w !! key, w).

(** *** [parseInt(string, 10)]

    A string is a sequence of code units below 256.  Leading white space
    is skipped, one sign is read, and the longest run of decimal digits
    that follows is the value; with no digit the result is [NaN].  (The
    [-0] that ["-0"] parses to is [Int 0]: as an index, in a sum and as a
    stored string it is 0.) *)
Inductive Parsed : Type := NaN | Int (n : Z).

Definition is_white_space (c : ascii) : bool :=
  bool_decide (N_of_ascii c ∈ [9; 10; 11; 12; 13; 32; 160]%N).

Fixpoint skip_white_space (s : string) : string :=
  match s with
  | String c rest => if is_white_space c then skip_white_space rest else s
  | EmptyString => s
  end.

Definition digit (c : ascii) : option N :=
  let n := N_of_ascii c in
  if ((48 <=? n) && (n <=? 57))%N then Some (n - 48)%N else None.

(** the value of the longest prefix of digits, after the digits read so
    far ([None]: none yet) *)
Fixpoint parse_digits (read : option N) (s : string) : option N :=
  match s with
  | String c rest =>
      match digit c with
      | Some d => parse_digits (Some (10 * default 0 read + d)%N) rest
      | None => read
      end
  | EmptyString => read
  end.

Definition parseInt (s : string) : Parsed :=
  let trimmed := skip_white_space s in
  let '(sign, digits) :=
    match trimmed with
    | String "-"%char rest => ((-1)%Z, rest)
    | String "+"%char rest => (1%Z, rest)
    | _ => (1%Z, trimmed)
    end in
  match parse_digits None digits with
  | Some n => Int (sign * Z.of_N n)
  | None => NaN
  end.

(** [inState ? parseInt(inState, 10) : 0]: [null] and the empty string
    are falsy *)
Definition getInitialLevel : Eff Parsed :=
  let* inState := localStorage_getItem "level" in
  ret match inState with
      | Some (String c rest) => parseInt (String c rest)
      | _ => Int 0
      end.

Record Size (num : Type) : Type := mkSize { width : num; height : num }.
Arguments mkSize {num} _ _.
Arguments width {num} _.
Arguments height {num} _.

(** the object [getProjectors] returns: two closures *)
Module Projectors.
Record t (num : Type) : Type := mk {
  projectDistance : num -> num;
  projectVector : Vector.t num -> Vector.t num
}.
Arguments mk {num} _ _.
Arguments projectDistance {num} _.
Arguments projectVector {num} _.
End Projectors.

(** *** What [HANDLER] inherits

    [HANDLER] is an object literal, so [HANDLER[type]] finds, besides its
    own four properties, those of [Object.prototype].  Each of them is
    truthy, and the reducer calls what it found as
    [handler(state, payload)], with no [this] (the code of a module is
    strict).  Modelled from ECMAScript: [Object] returns its argument
    when that is an object; [toString] returns the string
    "[object Undefined]", which is no state; [__proto__] is an object
    and not a function, and the others start by converting the missing
    [this] to an object: all of these raise a TypeError. *)
Inductive Inherited : Type :=
| returns_argument
| returns_string
| raises_TypeError.

Definition Object_prototype : gmap string Inherited :=
  list_to_map
    [ ("constructor", returns_argument);
      ("toString", returns_string);
      ("toLocaleString", raises_TypeError);
      ("valueOf", raises_TypeError);
      ("hasOwnProperty", raises_TypeError);
      ("isPrototypeOf", raises_TypeError);
      ("propertyIsEnumerable", raises_TypeError);
      ("__defineGetter__", raises_TypeError);
      ("__defineSetter__", raises_TypeError);
      ("__lookupGetter__", raises_TypeError);
      ("__lookupSetter__", raises_TypeError);
      ("__proto__", raises_TypeError) ].

Section Reducer.
Context {num : Type} `{Number num}.

(** The entities and the two functions of [game/core], and the table of
    [game/levels], are not among the sources: they are parameters.  A
    game is known by what the scene reads of it. *)
Variables Block Paddle Ball Level : Type.

Record Game : Type := mkGame {
  size : Size num;
  blocks : list Block;
  paddle : Paddle;
  ball : Ball;
  lives : Z
}.

Variable LEVELS : list Level.
(** [getNewGameState(game, movement, elapsed)] *)
Variable getNewGameState : Game -> option Movement -> Z -> Game.
(** [getGameStateFromLevel(descriptor)]: the descriptor is [undefined]
    ([None]) when the index is out of range, and the call may raise. *)
Variable getGameStateFromLevel : option Level -> option Game.

(** [LEVELS[i]] *)
Definition LEVELS_at (i : Z) : option Level :=
  if (i <? 0)%Z then None else LEVELS !! Z.to_nat i.

Definition getProjectors (containerSize gameSize : Size num)
  : Projectors.t num :=
  let widthRatio := (width containerSize / width gameSize)%num in
  let heightRatio := (height containerSize / height gameSize)%num in
  let unitOnScreen := Math_min widthRatio heightRatio in
  Projectors.mk
    (fun distance => (distance * unitOnScreen)%num)
    (fun vector => Vector.scaleBy vector unitOnScreen).

Record State : Type := mkState {
  level : Z;
  game : Game;
  containerSize : Size num;
  projectDistance : num -> num;
  projectVector : Vector.t num -> Vector.t num;
  time : Z;
  stopTime : option Z;
  movement : option Movement
}.

(** [{ ...state, field: value }] *)
Definition set_level (v : Z) (s : State) : State :=
  mkState v (game s) (containerSize s) (projectDistance s)
    (projectVector s) (time s) (stopTime s) (movement s).
Definition set_game (v : Game) (s : State) : State :=
  mkState (level s) v (containerSize s) (projectDistance s)
    (projectVector s) (time s) (stopTime s) (movement s).
Definition set_containerSize (v : Size num) (s : State) : State :=
  mkState (level s) (game s) v (projectDistance s)
    (projectVector s) (time s) (stopTime s) (movement s).
Definition set_time (v : Z) (s : State) : State :=
  mkState (level s) (game s) (containerSize s) (projectDistance s)
    (projectVector s) v (stopTime s) (movement s).
Definition set_stopTime (v : option Z) (s : State) : State :=
  mkState (level s) (game s) (containerSize s) (projectDistance s)
    (projectVector s) (time s) v (movement s).
Definition set_movement (v : option Movement) (s : State) : State :=
  mkState (level s) (game s) (containerSize s) (projectDistance s)
    (projectVector s) (time s) (stopTime s) v.
(** [{ ...state, ...getProjectors(...) }] *)
Definition set_projectors (p : Projectors.t num) (s : State) : State :=
  mkState (level s) (game s) (containerSize s)
    (Projectors.projectDistance p) (Projectors.projectVector p)
    (time s) (stopTime s) (movement s).

(** What [act(type, payload)] passes: a container size, a key code
    ([event.which]) or nothing. *)
Inductive Payload : Type :=
| undefined
| key_code (which : Z)
| container_size (containerSize : Size num).

Record Action : Type := mkAction { type : string; payload : Payload }.

(** [keys.includes(key)] *)
Definition includes (keys : list Z) (key : Payload) : bool :=
  match key with
  | key_code which => bool_decide (which ∈ keys)
  | _ => false
  end.

(** [key === STOP_KEY] *)
Definition is_STOP_KEY (key : Payload) : bool :=
  match key with
  | key_code which => (which =? STOP_KEY)%Z
  | _ => false
  end.

Definition HANDLER_CONTAINER_SIZE_CHANGE (state : State) (p : Payload)
  : Eff State :=
  match p with
  | container_size containerSize =>
      ret (set_projectors (getProjectors containerSize (size (game state)))
             (set_containerSize containerSize state))
  | _ => throw (* [act] sends a size here; no other call is modelled *)
  end.

Definition HANDLER_KEY_DOWN (state : State) (key : Payload) : Eff State :=
  if includes MOVEMENT_KEYS.LEFT key then
    ret (set_movement (Some LEFT) state)
  else if includes MOVEMENT_KEYS.RIGHT key then
    ret (set_movement (Some RIGHT) state)
  else ret state.

Definition HANDLER_KEY_UP (state : State) (key : Payload) : Eff State :=
  let newState := set_movement None state in
  if is_STOP_KEY key then
    if truthy (stopTime state) then
      (* [stopTime] holds a number here: [default] is never used *)
      let* now := Date_now in
      ret (set_time (time state + now - default 0 (stopTime state))%Z
             (set_stopTime None newState))
    else
      let* now := Date_now in
      ret (set_stopTime (Some now) newState)
  else ret newState.

Definition HANDLER_TICK (state : State) (_ : Payload) : Eff State :=
  if truthy (stopTime state) then ret state
  else
    let* time' := Date_now in
    let newGame :=
      getNewGameState (game state) (movement state) (time' - time state)%Z in
    let newState := set_time time' state in
    if (lives newGame <? 1)%Z then
      let* game' := call (getGameStateFromLevel (LEVELS_at (level state))) in
      ret (set_game game' newState)
    else if (length (blocks newGame) <? 1)%nat then
      let level' :=
        if (level state =? Z.of_nat (length LEVELS))%Z
        then level state else (level state + 1)%Z in
      let* _ := localStorage_setItem "level" level' in
      let* game' := call (getGameStateFromLevel (LEVELS_at (level state))) in
      ret (set_projectors (getProjectors (containerSize state) (size game'))
             (set_game game' (set_level level' newState)))
    else ret (set_game newGame newState).

Definition Handler : Type := State -> Payload -> Eff State.

(** the own properties of [HANDLER] *)
Definition HANDLER : gmap string Handler :=
  {[ ACTION.CONTAINER_SIZE_CHANGE := HANDLER_CONTAINER_SIZE_CHANGE;
     ACTION.KEY_DOWN := HANDLER_KEY_DOWN;
     ACTION.KEY_UP := HANDLER_KEY_UP;
     ACTION.TICK := HANDLER_TICK ]}.

(** [HANDLER[type]]: an own property, else an inherited one, else
    [undefined] *)
Inductive Found : Type :=
| own (handler : Handler)
| inherited (property : Inherited).

Definition HANDLER_at (type : string) : option Found :=
  match HANDLER !! type with
  | Some handler => Some (own handler)
  | None =>
      match Object_prototype !! type with
      | Some property => Some (inherited property)
      | None => None
      end
  end.

(** [handler(state, payload)].  A string that comes back is no state:
    the outcome is [None], as for a raise. *)
Definition call_found (handler : Found) (state : State) (p : Payload)
  : Eff State :=
  match handler with
  | own handler => handler state p
  | inherited returns_argument => ret state
  | inherited returns_string => throw
  | inherited raises_TypeError => throw
  end.

Definition reducer (state : State) (action : Action) : Eff State :=
  match HANDLER_at (type action) with
  | None => ret state
  | Some handler => call_found handler state (payload action)
  end.

(** [LEVELS[NaN]] is [undefined], and a state cannot hold [NaN] as its
    level: should the loader return a game for [undefined], the model
    stops there. *)
Definition getInitialState (containerSize : Size num) : Eff State :=
  let* level := getInitialLevel in
  match level with
  | Int level =>
      let* game := call (getGameStateFromLevel (LEVELS_at level)) in
      let p := getProjectors containerSize (size game) in
      let* now := Date_now in
      ret (mkState level game containerSize
             (Projectors.projectDistance p) (Projectors.projectVector p)
             now None None)
  | NaN =>
      let* _ := call (getGameStateFromLevel None) in throw
  end.

End Reducer.

Arguments Game : clear implicits.
Arguments State : clear implicits.
Arguments Payload : clear implicits.
Arguments Action : clear implicits.
Arguments Handler : clear implicits.
Arguments mkGame {num Block Paddle Ball} _ _ _ _ _.
Arguments size {num Block Paddle Ball} _.
Arguments blocks {num Block Paddle Ball} _.
Arguments paddle {num Block Paddle Ball} _.
Arguments ball {num Block Paddle Ball} _.
Arguments lives {num Block Paddle Ball} _.
Arguments mkState {num Block Paddle Ball} _ _ _ _ _ _ _ _.
Arguments level {num Block Paddle Ball} _.
Arguments game {num Block Paddle Ball} _.
Arguments containerSize {num Block Paddle Ball} _.
Arguments projectDistance {num Block Paddle Ball} _.
Arguments projectVector {num Block Paddle Ball} _.
Arguments time {num Block Paddle Ball} _.
Arguments stopTime {num Block Paddle Ball} _.
Arguments movement {num Block Paddle Ball} _.
Arguments set_level {num Block Paddle Ball} _ _.
Arguments set_game {num Block Paddle Ball} _ _.
Arguments set_containerSize {num Block Paddle Ball} _ _.
Arguments set_time {num Block Paddle Ball} _ _.
Arguments set_stopTime {num Block Paddle Ball} _ _.
Arguments set_movement {num Block Paddle Ball} _ _.
Arguments set_projectors {num Block Paddle Ball} _ _.
Arguments undefined {num}.
Arguments key_code {num} _.
Arguments container_size {num} _.
Arguments mkAction {num} _ _.
Arguments type {num} _.
Arguments payload {num} _.
Arguments LEVELS_at {Level} _ _.
Arguments HANDLER_CONTAINER_SIZE_CHANGE {num _ Block Paddle Ball} _ _.
Arguments HANDLER_KEY_DOWN {num Block Paddle Ball} _ _.
Arguments HANDLER_KEY_UP {num Block Paddle Ball} _ _.
Arguments HANDLER_TICK {num _ Block Paddle Ball Level} _ _ _ _ _.
Arguments HANDLER {num _ Block Paddle Ball Level} _ _ _.
Arguments reducer {num _ Block Paddle Ball Level} _ _ _ _ _.
Arguments Found : clear implicits.
Arguments own {num Block Paddle Ball} _.
Arguments inherited {num Block Paddle Ball} _.
Arguments HANDLER_at {num _ Block Paddle Ball Level} _ _ _ _.
Arguments call_found {num Block Paddle Ball} _ _ _.
Arguments getProjectors {num _} _ _.
Arguments getInitialState {num _ Block Paddle Ball Level} _ _ _.

(** *** Notions for the statements below

    The state a pause from [t1] to [t2] leaves. *)
Definition resumed {num Block Paddle Ball : Type}
  (state : State num Block Paddle Ball) (t1 t2 : Z)
  : State num Block Paddle Ball :=
  mkState (level state) (game state) (containerSize state)
    (projectDistance state) (projectVector state)
    (time state + t2 - t1) None None.

(** The state's clock readings are in order: the last update is not
    after now, and while the game is paused the pause began between the
    two. *)
Definition time_ok {num Block Paddle Ball : Type}
  (s : State num Block Paddle Ball) (w : World) : Prop :=
  (time s <= clock w)%Z
  /\ forall t : Z,
      stopTime s = Some t -> t <> 0%Z -> (time s <= t <= clock w)%Z.

End Scene.

(** ** A small instance to run the reducer on

    Stand-ins for what [game/core] and [game/levels] would supply: a block
    is its density, a level is the list of its blocks, a new game has
    three lives, a descriptor that is [undefined] makes the loader raise,
    and a tick knocks out the first block -- or, when more than a second
    has gone by, costs every life. *)

Module Demo.
Import Scene.

Definition Game : Type := Scene.Game float Z unit unit.
Definition State : Type := Scene.State float Z unit unit.

Definition board : Size float := mkSize 300%float 100%float.
Definition screen : Size float := mkSize 600%float 400%float.

Definition LEVELS : list (list Z) := [[1%Z]; [1%Z; 1%Z]].

Definition getGameStateFromLevel (descriptor : option (list Z))
  : option Game :=
  match descriptor with
  | Some densities => Some (mkGame board densities tt tt 3)
  | None => None
  end.

Definition getNewGameState (game : Game) (_ : option Movement)
  (elapsed : Z) : Game :=
  if (1000 <? elapsed)%Z
  then mkGame (size game) (blocks game) (paddle game) (ball game) 0
  else mkGame (size game) (tail (blocks game)) (paddle game) (ball game)
         (lives game).

Definition game0 : Game := mkGame board [1%Z] tt tt 3.
Definition game1 : Game := mkGame board [1%Z; 1%Z] tt tt 3.

Definition reducer : State -> Action float -> Eff State :=
  Scene.reducer LEVELS getNewGameState getGameStateFromLevel.

(** on level [lvl], one block left, last updated at 1000 ms *)
Definition playing (lvl : Z) : State :=
  let p := getProjectors screen board in
  mkState lvl game0 screen
    (Projectors.projectDistance p) (Projectors.projectVector p)
    1000 None None.

(** the same, paused at 1016 ms while steering left *)
Definition paused : State :=
  set_movement (Some LEFT) (set_stopTime (Some 1016%Z) (playing 0)).

Definition world (now : Z) : World := mkWorld now ∅.

Definition TICK : Action float := mkAction ACTION.TICK undefined.
Definition KEY_UP (which : Z) : Action float :=
  mkAction ACTION.KEY_UP (key_code which).
Definition KEY_DOWN (which : Z) : Action float :=
  mkAction ACTION.KEY_DOWN (key_code which).

(** [playing 0] after the TICK at 1016 ms that clears its last block *)
Definition cleared : State :=
  let p := getProjectors screen board in
  mkState 1 game0 screen
    (Projectors.projectDistance p) (Projectors.projectVector p)
    1016 None None.

(** the world at [now] with a level stored *)
Definition stored (now : Z) (lvl : string) : World :=
  mkWorld now {[ "level" := lvl ]}.

(** a step function that differs from [getNewGameState] only where time
    runs backwards *)
Definition getNewGameState' (game : Game) (m : option Movement)
  (elapsed : Z) : Game :=
  if (elapsed <? 0)%Z then game else getNewGameState game m elapsed.

(** degrees to radians, as [toRadians] of [utils] presumably does *)
Definition toRadians (degrees : R) : R := (degrees * PI / 180)%R.
End Demo.

(** two floats are different values when their decodings differ *)
Ltac float_neq :=
  let E := fresh "E" in
  intros E; apply (f_equal Prim2SF) in E; vm_compute in E; discriminate E.

(** * Properties of the vector algebra *)

Section VectorGeneric.
Context {num : Type} `{Number num}.
Local Open Scope num_scope.

Lemma normalize_unfold (v : Vector.t num) :
  Vector.normalize v = Vector.scaleBy v (lit 1 / Vector.length v).
Proof. reflexivity. Qed.

Lemma reflect_unfold (v n : Vector.t num) :
  Vector.reflect v n
  = Vector.subtract v (Vector.scaleBy (Vector.projectOn v n) (lit 2)).
Proof. reflexivity. Qed.

Lemma scaleBy_scaleBy_components (v : Vector.t num) (k j : num) :
  Vector.scaleBy (Vector.scaleBy v k) j
  = Vector.new (Vector.x v * k * j) (Vector.y v * k * j).
Proof. destruct v; reflexivity. Qed.
End VectorGeneric.

(** ** Exact arithmetic *)

Section VectorExact.
Local Open Scope R_scope.
Implicit Types v n u : Vector.t R.

Lemma hypot_sqr (a b : R) : Math_hypot a b * Math_hypot a b = a * a + b * b.
Proof. cbn. apply sqrt_sqrt. nra. Qed.

Lemma length_sqr v :
  Vector.length v * Vector.length v
  = Vector.x v * Vector.x v + Vector.y v * Vector.y v.
Proof. apply hypot_sqr. Qed.

Lemma length_nonneg v : 0 <= Vector.length v.
Proof. cbn. apply sqrt_pos. Qed.

(** a unit vector has squared components summing to one *)
Lemma unit_sqr n :
  Vector.length n = 1 ->
  Vector.x n * Vector.x n + Vector.y n * Vector.y n = 1.
Proof. intros Hn. rewrite <- length_sqr, Hn. ring. Qed.

(** off a unit normal the scalar amount of [projectOn] is the dot product *)
Lemma projectOn_unit v n :
  Vector.length n = 1 ->
  Vector.projectOn v n
  = Vector.scaleBy n (Vector.dotProduct v n).
Proof.
  intros Hn. unfold Vector.projectOn, Vector.scaleBy. rewrite Hn.
  destruct v as [vx vy], n as [nx ny]; cbn. f_equal; field.
Qed.

Lemma reflect_unit_components v n :
  Vector.length n = 1 ->
  Vector.reflect v n
  = Vector.new
      (Vector.x v - 2 * Vector.dotProduct v n * Vector.x n)
      (Vector.y v - 2 * Vector.dotProduct v n * Vector.y n).
Proof.
  intros Hn. unfold Vector.reflect. rewrite (projectOn_unit _ _ Hn).
  destruct v as [vx vy], n as [nx ny].
  unfold Vector.subtract, Vector.scaleBy, Vector.dotProduct; cbn.
  f_equal; ring.
Qed.

Lemma reflect_unit_sqr v n :
  Vector.length n = 1 ->
  let r := Vector.reflect v n in
  Vector.x r * Vector.x r + Vector.y r * Vector.y r
  = Vector.x v * Vector.x v + Vector.y v * Vector.y v.
Proof.
  intros Hn r. subst r. rewrite (reflect_unit_components _ _ Hn).
  pose proof (unit_sqr _ Hn) as Hs.
  destruct v as [vx vy], n as [nx ny]; cbn in *.
  set (d := vx * nx + vy * ny).
  transitivity (vx * vx + vy * vy + 4 * d * d * (nx * nx + ny * ny - 1)).
  - unfold d. ring.
  - rewrite Hs. ring.
Qed.
End VectorExact.

(** ** binary64 *)

Section VectorBinary64.
Local Open Scope float_scope.

(** [Vector(3,4).length() == 5] *)
Example length_3_4 : Vector.length (Vector.new 3 4) = 5.
Proof. reflexivity. Qed.

(** the zero vector has length [+0], whatever the signs of its zeros *)
Lemma length_zero_vectors :
  Vector.length (Vector.new 0 0) = 0
  /\ Vector.length (Vector.new (-0) 0) = 0
  /\ Vector.length (Vector.new 0 (-0)) = 0
  /\ Vector.length (Vector.new (-0) (-0)) = 0.
Proof. repeat split; reflexivity. Qed.

(** [1 / 0] is [Infinity], and [0 * Infinity] is [NaN] *)
Lemma normalize_zero_is_nan :
  Vector.normalize (Vector.new 0 0) = Vector.new nan nan.
Proof. reflexivity. Qed.

(** The smallest positive number, 2^-1074 (about 4.9e-324), has a
    reciprocal beyond the largest binary64 number. *)
Lemma normalize_subnormal :
  Vector.length (Vector.new 0x1p-1074 0) = 0x1p-1074
  /\ Vector.normalize (Vector.new 0x1p-1074 0) = Vector.new infinity nan.
Proof. split; reflexivity. Qed.

(** Off the floor, a velocity of 2^1023 (about 9e307): twice the
    projected amount overflows. *)
Lemma reflect_overflow :
  Vector.reflect (Vector.new 0 0x1p1023) (Vector.new 0 1)
  = Vector.new 0 neg_infinity.
Proof. reflexivity. Qed.

(** 0.1 * 0.2 * 0.3 against 0.1 * (0.2 * 0.3): the doubles nearest to
    0.1, 0.2 and 0.3 are written out in hexadecimal. *)
Lemma scaleBy_scaleBy_rounds :
  Vector.scaleBy (Vector.scaleBy (Vector.new 0x1.999999999999ap-4 0)
                    0x1.999999999999ap-3) 0x1.3333333333333p-2
  = Vector.new 0x1.89374bc6a7efbp-8 0
  /\ Vector.scaleBy (Vector.new 0x1.999999999999ap-4 0)
       (0x1.999999999999ap-3 * 0x1.3333333333333p-2)
     = Vector.new 0x1.89374bc6a7efap-8 0.
Proof. split; vm_compute; reflexivity. Qed.
End VectorBinary64.

(** ** The claims about [vector.js] *)

Section VectorClaims.
Implicit Types v n u : Vector.t R.
Local Abbreviation vecR a b := (@Vector.new R a%R b%R).
Local Abbreviation vecF a b := (@Vector.new float a%float b%float).

Lemma length_0_1_exact : Vector.length (vecR 0 1) = 1%R.
Proof.
  cbn. replace (0 * 0 + 1 * 1)%R with 1%R by ring. apply sqrt_1.
Qed.

Lemma length_3_4_exact : Vector.length (vecR 3 4) = 5%R.
Proof.
  cbn. replace (3 * 3 + 4 * 4)%R with (5 * 5)%R by ring.
  apply sqrt_square. lra.
Qed.

(** C2, as stated, fails in binary64: off the unit normal (0,1) the
    velocity (0, 2^1023) is reflected to (0, -Infinity), whose length is
    Infinity and not 2^1023. *)
Lemma reflect_length_binary64_overflow :
  Vector.length (vecF 0 1) = 1%float
  /\ Vector.length (Vector.reflect (vecF 0 0x1p1023) (vecF 0 1))
     <> Vector.length (vecF 0 0x1p1023).
Proof. split; [reflexivity | vm_compute; float_neq]. Qed.

(** Rounding alone moves the length too.  With [Float64.hypot] for
    [Math.hypot], the doubles nearest to (0.6, 0.8) form a vector of
    length 1, and (1, 3) leaves it with its length changed in the last
    place. *)
Example reflect_length_binary64_rounding :
  let n := vecF 0x1.3333333333333p-1 0x1.999999999999ap-1 in
  let v := vecF 1 3 in
  (Vector.length n = 1
   /\ Vector.length v = 0x1.94c583ada5b53p+1
   /\ Vector.length (Vector.reflect v n) = 0x1.94c583ada5b54p+1)%float.
Proof. repeat split; vm_compute; reflexivity. Qed.

(** C2 (amended): in exact arithmetic, for every vector [v] and every
    vector [n] with [n.length() = 1], [v.reflect(n)] has the same
    Euclidean length as [v]. *)
Theorem reflect_length_exact v n :
  Vector.length n = 1%R ->
  Vector.length (Vector.reflect v n) = Vector.length v.
Proof.
  intros Hn. pose proof (reflect_unit_sqr v n Hn) as Hsq. cbv zeta in Hsq.
  unfold Vector.length. cbn [Math_hypot R_Number].
  f_equal. exact Hsq.
Qed.

Lemma reflect_length_exact_witness :
  Vector.length (vecR 0 1) = 1%R
  /\ Vector.length (Vector.reflect (vecR 1 (-1)) (vecR 0 1))
     = Vector.length (vecR 1 (-1)).
Proof.
  split; [exact length_0_1_exact|].
  exact (reflect_length_exact _ _ length_0_1_exact).
Defined.

(** C3, as stated, fails in binary64: off the unit normal (0,1) the
    reflection of (0, 2^1023) has the component -Infinity along the
    normal, where the flipped component of the vector is -2^1023. *)
Lemma reflect_flip_binary64_overflow :
  Vector.length (vecF 0 1) = 1%float
  /\ Vector.dotProduct (Vector.reflect (vecF 0 0x1p1023) (vecF 0 1))
       (vecF 0 1) = neg_infinity
  /\ (- Vector.dotProduct (vecF 0 0x1p1023) (vecF 0 1))%float
     = (- 0x1p1023)%float
  /\ Vector.dotProduct (Vector.reflect (vecF 0 0x1p1023) (vecF 0 1))
       (vecF 0 1)
     <> (- Vector.dotProduct (vecF 0 0x1p1023) (vecF 0 1))%float.
Proof.
  split; [reflexivity|]. split; [reflexivity|]. split; [reflexivity|].
  vm_compute. float_neq.
Qed.

(** C3 (amended): [v.reflect(n)] is
    [v.subtract(v.projectOn(n).scaleBy(2))], for every number type; as
    JavaScript computes it, [Vector(1,-1).reflect(Vector(0,1))] is
    [Vector(1,1)]; and for a unit [n], in exact arithmetic, the
    reflection negates the component of [v] along [n] (the dot product
    with [n]) and keeps the component across it (the cross product with
    [n]). *)
Theorem reflect_spec :
  (forall (num : Type) (N : Number num) (v n : Vector.t num),
      Vector.reflect v n
      = Vector.subtract v (Vector.scaleBy (Vector.projectOn v n) (lit 2)))
  /\ Vector.reflect (vecF 1 (-1)) (vecF 0 1) = vecF 1 1
  /\ (forall v n,
        Vector.length n = 1%R ->
        Vector.dotProduct (Vector.reflect v n) n
        = (- Vector.dotProduct v n)%R
        /\ Vector.crossProduct (Vector.reflect v n) n
           = Vector.crossProduct v n).
Proof.
  split; [reflexivity|]. split; [reflexivity|].
  intros v n Hn. rewrite (reflect_unit_components _ _ Hn).
  pose proof (unit_sqr _ Hn) as Hs.
  destruct v as [vx vy], n as [nx ny].
  unfold Vector.dotProduct, Vector.crossProduct; cbn in *.
  set (d := (vx * nx + vy * ny)%R). split.
  - transitivity (d - 2 * d * (nx * nx + ny * ny))%R.
    + unfold d. ring.
    + rewrite Hs. ring.
  - ring.
Qed.

Lemma reflect_spec_witness :
  Vector.length (vecR 0 1) = 1%R
  /\ Vector.dotProduct
       (Vector.reflect (vecR 1 (-1)) (vecR 0 1)) (vecR 0 1)
     = (- Vector.dotProduct (vecR 1 (-1)) (vecR 0 1))%R.
Proof.
  split; [exact length_0_1_exact|].
  exact (proj1 (proj2 (proj2 reflect_spec) _ _ length_0_1_exact)).
Defined.

(** C4, as stated, fails in binary64: the vector (2^-1074, 0) has the
    non-zero length 2^-1074, and its [normalize()] is (Infinity, NaN). *)
Lemma normalize_binary64_not_finite :
  let v := vecF 0x1p-1074 0 in
  PrimFloat.eqb (Vector.length v) 0 = false
  /\ Vector.length v <> 0%float
  /\ is_finite (Vector.x (Vector.normalize v)) = false
  /\ is_finite (Vector.y (Vector.normalize v)) = false.
Proof.
  cbv zeta. split; [reflexivity|]. split; [vm_compute; float_neq|].
  split; reflexivity.
Qed.

(** Rounding shows in ordinary vectors too: with [Float64.hypot] for
    [Math.hypot], the doubles nearest to (0.1, 0.2) are normalized to a
    vector of length 0.9999999999999999. *)
Example normalize_binary64_rounding :
  Vector.length
    (Vector.normalize (vecF 0x1.999999999999ap-4 0x1.999999999999ap-3))
  = 0x1.fffffffffffffp-1%float.
Proof. vm_compute. reflexivity. Qed.

(** C4 (amended): [normalize()] is [scaleBy(1 / length())], with no
    guard, for every number type; in exact arithmetic the result has
    length 1 for every vector of non-zero length; in binary64 the zero
    vector is sent to (NaN, NaN). *)
Theorem normalize_spec :
  (forall (num : Type) (N : Number num) (v : Vector.t num),
      Vector.normalize v
      = Vector.scaleBy v (ndiv (lit 1) (Vector.length v)))
  /\ (forall v,
        Vector.length v <> 0%R ->
        Vector.length (Vector.normalize v) = 1%R)
  /\ Vector.normalize (vecF 0 0) = vecF nan nan.
Proof.
  split; [reflexivity|]. split; [|reflexivity].
  intros v Hv. pose proof (length_sqr v) as Hsq.
  unfold Vector.normalize. cbn [lit ndiv R_Number].
  remember (Vector.length v) as L eqn:HL. clear HL.
  destruct v as [vx vy]. cbn in Hsq |- *.
  match goal with |- sqrt ?e = _ => replace e with 1%R; [apply sqrt_1|] end.
  transitivity ((vx * vx + vy * vy) / (L * L))%R.
  - rewrite <- Hsq. field. exact Hv.
  - field. exact Hv.
Qed.

Lemma normalize_spec_witness :
  Vector.length (vecR 3 4) <> 0%R
  /\ Vector.length (Vector.normalize (vecR 3 4)) = 1%R.
Proof.
  assert (Hne : Vector.length (vecR 3 4) <> 0%R)
    by (rewrite length_3_4_exact; lra).
  split; [exact Hne|].
  exact (proj1 (proj2 normalize_spec) _ Hne).
Defined.

(** C6: [u.projectOn(v)] is the vector [(amt * v.x, amt * v.y)] with
    [amt = u.dotProduct(v) / v.length()], for every number type and all
    [u] and [v]; the amount is divided by the length once: projecting
    (2,0) on (2,0) gives (4,0), where a division by the squared length
    would give (2,0). *)
Theorem projectOn_spec :
  (forall (num : Type) (N : Number num) (u v : Vector.t num),
      let amt := ndiv (Vector.dotProduct u v) (Vector.length v) in
      Vector.projectOn u v
      = Vector.new (nmul amt (Vector.x v)) (nmul amt (Vector.y v)))
  /\ (let u := vecF 2 0 in
      let amt2 :=
        (Vector.dotProduct u u / (Vector.length u * Vector.length u))%float in
      Vector.projectOn u u = vecF 4 0
      /\ vecF (amt2 * Vector.x u) (amt2 * Vector.y u) = vecF 2 0
      /\ Vector.projectOn u u
         <> vecF (amt2 * Vector.x u) (amt2 * Vector.y u)).
Proof.
  split; [reflexivity|]. cbv zeta.
  split; [reflexivity|]. split; [reflexivity|].
  vm_compute. intros E. apply (f_equal (fun w => Prim2SF (Vector.x w))) in E.
  vm_compute in E. discriminate E.
Qed.

(** C8, as stated, fails in binary64: with the doubles nearest to 0.1,
    0.2 and 0.3, [Vector(0.1, 0).scaleBy(0.2).scaleBy(0.3)] has
    x = 0.006000000000000001 and [Vector(0.1, 0).scaleBy(0.2 * 0.3)] has
    x = 0.006; [==] on the two is false. *)
Lemma scaleBy_scaleBy_binary64 :
  let v := vecF 0x1.999999999999ap-4 0 in
  let k := 0x1.999999999999ap-3%float in
  let j := 0x1.3333333333333p-2%float in
  Vector.scaleBy (Vector.scaleBy v k) j <> Vector.scaleBy v (k * j)%float
  /\ PrimFloat.eqb (Vector.x (Vector.scaleBy (Vector.scaleBy v k) j))
       (Vector.x (Vector.scaleBy v (k * j)%float)) = false.
Proof.
  cbv zeta. split; [|reflexivity].
  vm_compute. intros E. apply (f_equal (fun w => Prim2SF (Vector.x w))) in E.
  vm_compute in E. discriminate E.
Qed.

(** in exact arithmetic the two scalings agree *)
Lemma scaleBy_scaleBy_exact v (k j : R) :
  Vector.scaleBy (Vector.scaleBy v k) j = Vector.scaleBy v (k * j)%R.
Proof.
  destruct v as [vx vy]. unfold Vector.scaleBy; cbn. f_equal; ring.
Qed.

(** C8 (amended): in exact arithmetic, for every vector [v] and all
    scalars [k] and [j], [v.scaleBy(k).scaleBy(j)] equals
    [v.scaleBy(k*j)].  For every number type the first has the
    components [(x*k)*j] and [(y*k)*j], the second [x*(k*j)] and
    [y*(k*j)]; in binary64 these can be as far apart as Infinity and
    2^600, at [Vector(2^600, 0)], [k = 2^600] and [j = 2^-600]. *)
Theorem scaleBy_scaleBy_spec :
  (forall (v : Vector.t R) (k j : R),
      Vector.scaleBy (Vector.scaleBy v k) j = Vector.scaleBy v (k * j)%R)
  /\ (forall (num : Type) (N : Number num) (v : Vector.t num) (k j : num),
        Vector.scaleBy (Vector.scaleBy v k) j
        = Vector.new (nmul (nmul (Vector.x v) k) j)
            (nmul (nmul (Vector.y v) k) j)
        /\ Vector.scaleBy v (nmul k j)
           = Vector.new (nmul (Vector.x v) (nmul k j))
               (nmul (Vector.y v) (nmul k j)))
  /\ Vector.scaleBy (Vector.scaleBy (vecF 0x1p600 0) 0x1p600%float)
       0x1p-600%float
     = vecF infinity 0
  /\ Vector.scaleBy (vecF 0x1p600 0) (0x1p600 * 0x1p-600)%float
     = vecF 0x1p600 0.
Proof.
  split; [exact scaleBy_scaleBy_exact|].
  split; [intros num N v k j; split; reflexivity|].
  split; reflexivity.
Qed.
End VectorClaims.

(** * Properties of the reducer *)

Section SceneFacts.
Import Scene.
Context {num : Type} `{Number num} {Block Paddle Ball Level : Type}.
Variable LEVELS : list Level.
Variable getNewGameState :
  Game num Block Paddle Ball -> option Movement -> Z ->
  Game num Block Paddle Ball.
Variable getGameStateFromLevel :
  option Level -> option (Game num Block Paddle Ball).

Local Abbreviation HANDLER' :=
  (HANDLER LEVELS getNewGameState getGameStateFromLevel).
Local Abbreviation reducer' :=
  (reducer LEVELS getNewGameState getGameStateFromLevel).
Local Abbreviation TICK' :=
  (HANDLER_TICK LEVELS getNewGameState getGameStateFromLevel).

Lemma HANDLER_TICK_lookup : HANDLER' !! ACTION.TICK = Some TICK'.
Proof. reflexivity. Qed.

Lemma HANDLER_KEY_UP_lookup : HANDLER' !! ACTION.KEY_UP = Some HANDLER_KEY_UP.
Proof. reflexivity. Qed.

Lemma reducer_TICK state p :
  reducer' state (mkAction ACTION.TICK p) = TICK' state p.
Proof. reflexivity. Qed.

Lemma reducer_KEY_UP state p :
  reducer' state (mkAction ACTION.KEY_UP p) = HANDLER_KEY_UP state p.
Proof. reflexivity. Qed.

(** C1 (what the code does): when the game is not paused and the ticked
    game has a life left and no block, TICK moves the level index on by
    one unless it equals [LEVELS.length], writes it to the store, and
    returns the game built from [LEVELS[state.level]] -- the index the
    state came in with, not the one it leaves with -- with the
    projectors of that game's size. *)
Theorem tick_level_clear state p w g :
  truthy (stopTime state) = false ->
  let newGame :=
    getNewGameState (game state) (movement state) (clock w - time state) in
  let level' :=
    if (level state =? Z.of_nat (length LEVELS))%Z
    then level state else (level state + 1)%Z in
  (1 <= lives newGame)%Z ->
  blocks newGame = [] ->
  getGameStateFromLevel (LEVELS_at LEVELS (level state)) = Some g ->
  reducer' state (mkAction ACTION.TICK p) w
  = Some
      (mkState level' g (containerSize state)
         (Projectors.projectDistance
            (getProjectors (containerSize state) (size g)))
         (Projectors.projectVector
            (getProjectors (containerSize state) (size g)))
         (clock w) (stopTime state) (movement state),
       mkWorld (clock w) (<["level" := pretty level']> (localStorage w))).
Proof.
  intros Hrun newGame level' Hlives Hblocks Hg.
  rewrite reducer_TICK. unfold HANDLER_TICK. rewrite Hrun.
  unfold bind, Date_now. fold newGame.
  destruct (Z.ltb_spec (lives newGame) 1) as [Hlt|_]; [lia|].
  rewrite Hblocks. cbn [length Nat.ltb Nat.leb].
  unfold localStorage_setItem, call. rewrite Hg. reflexivity.
Qed.

(** C5: when the game is not paused and the ticked game has lives below
    1, TICK returns the state with the clock's time and with the game
    built from [LEVELS[state.level]]; the level index, like every other
    field, and the store are as they were. *)
Theorem tick_lives_exhausted state p w g :
  truthy (stopTime state) = false ->
  (lives (getNewGameState (game state) (movement state)
            (clock w - time state)) < 1)%Z ->
  getGameStateFromLevel (LEVELS_at LEVELS (level state)) = Some g ->
  reducer' state (mkAction ACTION.TICK p) w
  = Some
      (mkState (level state) g (containerSize state)
         (projectDistance state) (projectVector state)
         (clock w) (stopTime state) (movement state), w).
Proof.
  intros Hrun Hlives Hg.
  rewrite reducer_TICK. unfold HANDLER_TICK. rewrite Hrun.
  unfold bind, Date_now.
  destruct (Z.ltb_spec
              (lives (getNewGameState (game state) (movement state)
                        (clock w - time state))) 1) as [_|Hge]; [|lia].
  unfold call. rewrite Hg. reflexivity.
Qed.

(** C7: while [stopTime] is set ([if (state.stopTime)] succeeds), a TICK
    action returns the very state it was given, and touches neither the
    clock nor the store. *)
Theorem tick_paused state p w :
  truthy (stopTime state) = true ->
  reducer' state (mkAction ACTION.TICK p) w = Some (state, w).
Proof.
  intros Hpaused. rewrite reducer_TICK. unfold HANDLER_TICK.
  rewrite Hpaused. reflexivity.
Qed.

(** a type that is none of the four is no own property of [HANDLER] *)
Lemma HANDLER_lookup_other (ty : string) :
  ty ∉ [ACTION.CONTAINER_SIZE_CHANGE; ACTION.KEY_DOWN; ACTION.KEY_UP;
        ACTION.TICK] ->
  HANDLER' !! ty = None.
Proof.
  intros Hty. unfold HANDLER.
  rewrite !not_elem_of_cons in Hty.
  destruct Hty as (H1 & H2 & H3 & H4 & _).
  rewrite !lookup_insert_ne by congruence.
  rewrite lookup_singleton_ne by congruence.
  reflexivity.
Qed.

(** no inherited name is one of the four *)
Lemma Object_prototype_other (ty : string) (property : Inherited) :
  Object_prototype !! ty = Some property ->
  ty ∉ [ACTION.CONTAINER_SIZE_CHANGE; ACTION.KEY_DOWN; ACTION.KEY_UP;
        ACTION.TICK].
Proof.
  intros Hp. rewrite !not_elem_of_cons.
  repeat split; try apply not_elem_of_nil;
    intros ->; vm_compute in Hp; discriminate Hp.
Qed.

(** what the reducer does with an inherited name *)
Lemma reducer_inherited state action w (property : Inherited) :
  Object_prototype !! type action = Some property ->
  reducer' state action w
  = match property with
    | returns_argument => Some (state, w)
    | _ => None
    end.
Proof.
  intros Hp. unfold reducer, HANDLER_at.
  rewrite (HANDLER_lookup_other _ (Object_prototype_other _ _ Hp)), Hp.
  destruct property; reflexivity.
Qed.

(** C9, as stated, fails: [toString] is none of the four types, and
    [HANDLER["toString"]] is the function [Object.prototype.toString];
    called, it returns the string "[object Undefined]", so the state
    does not come back. *)
Lemma reducer_toString :
  ("toString"
     ∉ [ACTION.CONTAINER_SIZE_CHANGE; ACTION.KEY_DOWN; ACTION.KEY_UP;
        ACTION.TICK])
  /\ Demo.reducer Demo.paused (mkAction "toString" undefined)
       (Demo.world 5000)
     <> Some (Demo.paused, Demo.world 5000).
Proof.
  split.
  - apply (bool_decide_unpack _). vm_compute. reflexivity.
  - change (Demo.reducer Demo.paused (mkAction "toString" undefined)
              (Demo.world 5000)) with (@None (Demo.State * World)).
    discriminate.
Qed.

(** C9 (amended): an action whose type is none of CONTAINER_SIZE_CHANGE,
    KEY_DOWN, KEY_UP and TICK, and names no property [HANDLER] inherits
    from [Object.prototype], leaves the state (and the world) as it is. *)
Theorem reducer_unknown_type state action w :
  type action
    ∉ [ACTION.CONTAINER_SIZE_CHANGE; ACTION.KEY_DOWN; ACTION.KEY_UP;
       ACTION.TICK] ->
  Object_prototype !! type action = None ->
  reducer' state action w = Some (state, w).
Proof.
  intros Hty Hp. unfold reducer, HANDLER_at.
  rewrite (HANDLER_lookup_other _ Hty), Hp. reflexivity.
Qed.

(** C10: releasing the stop key (32) while [stopTime] is set clears
    [stopTime] and [movement] and moves [time] forward by the paused
    duration, the clock's time minus [stopTime]; every other field and
    the store stay.  Hence whenever the next tick comes, its elapsed
    time is the one it would have had without the pause, less the
    paused duration. *)
Theorem key_up_stop_resumes state w t :
  stopTime state = Some t -> t <> 0%Z ->
  reducer' state (mkAction ACTION.KEY_UP (key_code STOP_KEY)) w
  = Some
      (mkState (level state) (game state) (containerSize state)
         (projectDistance state) (projectVector state)
         (time state + clock w - t) None None, w)
  /\ (time state + clock w - t = time state + (clock w - t))%Z
  /\ forall later : Z,
      (later - (time state + clock w - t)
       = (later - time state) - (clock w - t))%Z.
Proof.
  intros Hstop Ht. split; [|split; intros; lia].
  rewrite reducer_KEY_UP. unfold HANDLER_KEY_UP.
  cbn [is_STOP_KEY]. rewrite Z.eqb_refl.
  unfold truthy. rewrite Hstop.
  destruct (Z.eqb_spec t 0) as [?|_]; [contradiction|].
  reflexivity.
Qed.
End SceneFacts.

(** ** The reducer at work *)

Section SceneRuns.
Import Scene.

(** C1, at a failing input: with two levels, clearing level 0 sixteen
    milliseconds after the last update stores and returns level index 1
    together with the game of level 0 (one block), not that of level 1
    (two blocks). *)
Lemma tick_level_clear_first_level :
  Demo.reducer (Demo.playing 0) Demo.TICK (Demo.world 1016)
  = Some
      (let p := getProjectors Demo.screen Demo.board in
       mkState 1 Demo.game0 Demo.screen
         (Projectors.projectDistance p) (Projectors.projectVector p)
         1016 None None,
       mkWorld 1016 {[ "level" := "1" ]})
  /\ Demo.getGameStateFromLevel (LEVELS_at Demo.LEVELS 0) = Some Demo.game0
  /\ Demo.getGameStateFromLevel (LEVELS_at Demo.LEVELS 1) = Some Demo.game1
  /\ Demo.game0 <> Demo.game1.
Proof.
  split; [|split; [reflexivity|split; [reflexivity|discriminate]]].
  exact (tick_level_clear Demo.LEVELS Demo.getNewGameState
           Demo.getGameStateFromLevel (Demo.playing 0) undefined
           (Demo.world 1016) Demo.game0 eq_refl
           ltac:(vm_compute; discriminate) eq_refl eq_refl).
Defined.

(** Clearing the last of the two levels (index 1) stores and returns
    index 2, which is [LEVELS.length] and names no level; only from
    there on does the index stay. *)
Example tick_level_clear_last_level :
  (exists state' w',
      Demo.reducer (Demo.playing 1) Demo.TICK (Demo.world 1016)
      = Some (state', w')
      /\ level state' = 2%Z
      /\ game state' = Demo.game1
      /\ localStorage w' !! "level" = Some "2")
  /\ Z.of_nat (length Demo.LEVELS) = 2%Z
  /\ LEVELS_at Demo.LEVELS 2 = None.
Proof.
  split; [|split; reflexivity].
  eexists _, _. split; [vm_compute; reflexivity|].
  repeat split; reflexivity.
Qed.

Lemma tick_lives_exhausted_witness :
  Demo.reducer (Demo.playing 1) Demo.TICK (Demo.world 2500)
  = Some
      (let p := getProjectors Demo.screen Demo.board in
       mkState 1 Demo.game1 Demo.screen
         (Projectors.projectDistance p) (Projectors.projectVector p)
         2500 None None,
       Demo.world 2500).
Proof.
  exact (tick_lives_exhausted Demo.LEVELS Demo.getNewGameState
           Demo.getGameStateFromLevel (Demo.playing 1) undefined
           (Demo.world 2500) Demo.game1 eq_refl eq_refl eq_refl).
Defined.

Lemma tick_paused_witness :
  Demo.reducer Demo.paused Demo.TICK (Demo.world 5000)
  = Some (Demo.paused, Demo.world 5000).
Proof.
  exact (tick_paused Demo.LEVELS Demo.getNewGameState
           Demo.getGameStateFromLevel Demo.paused undefined
           (Demo.world 5000) eq_refl).
Defined.

Lemma reducer_unknown_type_witness :
  Demo.reducer Demo.paused (mkAction "RESET" undefined) (Demo.world 5000)
  = Some (Demo.paused, Demo.world 5000).
Proof.
  apply (reducer_unknown_type Demo.LEVELS Demo.getNewGameState
           Demo.getGameStateFromLevel).
  - apply (bool_decide_unpack _). vm_compute. reflexivity.
  - reflexivity.
Defined.

Lemma key_up_stop_resumes_witness :
  Demo.reducer Demo.paused (Demo.KEY_UP 32) (Demo.world 5000)
  = Some
      (let p := getProjectors Demo.screen Demo.board in
       mkState 0 Demo.game0 Demo.screen
         (Projectors.projectDistance p) (Projectors.projectVector p)
         4984 None None,
       Demo.world 5000).
Proof.
  exact (proj1 (key_up_stop_resumes Demo.LEVELS Demo.getNewGameState
                  Demo.getGameStateFromLevel Demo.paused (Demo.world 5000)
                  1016 eq_refl ltac:(discriminate))).
Defined.
End SceneRuns.

(** * Further properties *)

(** ** binary64: laws that survive rounding *)

Section Binary64Laws.
Import SpecFloat FloatAxioms FloatOps.

Lemma SFmul_comm (p e : Z) (a b : spec_float) : SFmul p e a b = SFmul p e b a.
Proof.
  destruct a as [sa|sa| |sa ma ea], b as [sb|sb| |sb mb eb]; cbn [SFmul];
    rewrite ?(Bool.xorb_comm sa sb), ?(Pos.mul_comm ma mb),
      ?(Z.add_comm ea eb); reflexivity.
Qed.

Lemma SFadd_comm (p e : Z) (a b : spec_float) : SFadd p e a b = SFadd p e b a.
Proof.
  destruct a as [sa|sa| |sa ma ea], b as [sb|sb| |sb mb eb]; cbn [SFadd];
    try reflexivity; try (destruct sa, sb; reflexivity).
  rewrite (Z.min_comm ea eb), Z.add_comm. reflexivity.
Qed.

Lemma float_mul_comm (a b : float) : (a * b = b * a)%float.
Proof. apply Prim2SF_inj. rewrite !mul_spec. apply SFmul_comm. Qed.

Lemma float_add_comm (a b : float) : (a + b = b + a)%float.
Proof. apply Prim2SF_inj. rewrite !add_spec. apply SFadd_comm. Qed.

(** rounding to nearest, ties to even, does not look at the sign *)
Lemma SFopp_binary_round_aux (p e : Z) (s : bool) (m x : Z) (l : location) :
  SFopp (binary_round_aux p e s m x l) = binary_round_aux p e (negb s) m x l.
Proof.
  unfold binary_round_aux.
  destruct (shr_fexp p e m x l) as [mrs' e'].
  destruct (shr_fexp p e _ e' loc_Exact) as [mrs'' e''].
  destruct (shr_m mrs''); [reflexivity| |reflexivity].
  destruct (e'' <=? e - p)%Z; reflexivity.
Qed.

Lemma SFopp_binary_round (p e : Z) (s : bool) (m : positive) (x : Z) :
  SFopp (binary_round p e s m x) = binary_round p e (negb s) m x.
Proof.
  unfold binary_round. destruct (shl_align m x _) as [mz ez].
  apply SFopp_binary_round_aux.
Qed.

(** [a - b] is the negation of [b - a], except that both are [+0] when
    the difference of two finite numbers vanishes *)
Lemma SFsub_swap (p e : Z) (a b : spec_float) :
  SFsub p e a b = SFopp (SFsub p e b a)
  \/ (SFsub p e a b = S754_zero false /\ SFsub p e b a = S754_zero false).
Proof.
  destruct a as [sa|sa| |sa ma ea], b as [sb|sb| |sb mb eb]; cbn [SFsub SFopp];
    try (left; reflexivity);
    try (destruct sa, sb; cbn; auto; fail);
    try (destruct sa; cbn; auto; fail);
    try (destruct sb; cbn; auto; fail).
  rewrite (Z.min_comm eb ea).
  set (za := cond_Zopp sa (Z.pos (fst (shl_align ma ea (Z.min ea eb))))).
  set (zb := cond_Zopp sb (Z.pos (fst (shl_align mb eb (Z.min ea eb))))).
  replace (zb - za)%Z with (- (za - zb))%Z by lia.
  destruct (za - zb)%Z as [|d|d]; unfold binary_normalize.
  - right. split; reflexivity.
  - left. change (- Z.pos d)%Z with (Z.neg d). cbv beta iota.
    rewrite SFopp_binary_round. reflexivity.
  - left. change (- Z.neg d)%Z with (Z.pos d). cbv beta iota.
    rewrite SFopp_binary_round. reflexivity.
Qed.

Lemma float_sub_swap (a b : float) :
  (a - b = - (b - a))%float \/ ((a - b = 0)%float /\ (b - a = 0)%float).
Proof.
  destruct (SFsub_swap prec emax (Prim2SF a) (Prim2SF b)) as [E|[E1 E2]].
  - left. apply Prim2SF_inj. rewrite opp_spec, !sub_spec. exact E.
  - right. split; apply Prim2SF_inj; rewrite sub_spec; assumption.
Qed.
End Binary64Laws.

(** ** [vector.js] on binary64 numbers *)

Section VectorBinary64Laws.
Implicit Types v w : Vector.t float.

(** X1: [v.dotProduct(w)] and [w.dotProduct(v)] are the same binary64
    number, for all vectors, infinite and NaN components included. *)
Theorem dotProduct_comm_binary64 v w :
  Vector.dotProduct v w = Vector.dotProduct w v.
Proof.
  unfold Vector.dotProduct. cbn [nadd nmul float_Number].
  rewrite (float_mul_comm (Vector.x v)), (float_mul_comm (Vector.y v)).
  reflexivity.
Qed.

(** X2: [v.add(w)] and [w.add(v)] are the same vector of binary64
    numbers. *)
Theorem add_comm_binary64 v w : Vector.add v w = Vector.add w v.
Proof.
  unfold Vector.add. cbn [nadd float_Number].
  rewrite (float_add_comm (Vector.x v)), (float_add_comm (Vector.y v)).
  reflexivity.
Qed.

(** X3: [v.crossProduct(w)] is the negation of [w.crossProduct(v)], bit
    for bit, unless the two products cancel, in which case both are [+0]
    (and [+0 == -0]). *)
Theorem crossProduct_swap_binary64 v w :
  Vector.crossProduct v w = (- Vector.crossProduct w v)%float
  \/ (Vector.crossProduct v w = 0%float
      /\ Vector.crossProduct w v = 0%float).
Proof.
  unfold Vector.crossProduct. cbn [nsub nmul float_Number].
  apply float_sub_swap.
Qed.
End VectorBinary64Laws.

(** ** [vector.js] in exact arithmetic *)

Section VectorExactLaws.
Local Open Scope R_scope.
Implicit Types v w n : Vector.t R.

Lemma length_0_iff v :
  Vector.length v = 0 <-> Vector.x v = 0 /\ Vector.y v = 0.
Proof.
  pose proof (length_sqr v) as Hsq. split.
  - intros H0. rewrite H0 in Hsq. split; nra.
  - intros [Hx Hy]. unfold Vector.length. cbn. rewrite Hx, Hy.
    replace (0 * 0 + 0 * 0) with 0 by ring. apply sqrt_0.
Qed.

Lemma length_pos v : Vector.length v <> 0 -> 0 < Vector.length v.
Proof. pose proof (length_nonneg v). lra. Qed.

(** two lengths are equal when the sums of squares are *)
Lemma length_eq_iff v w :
  Vector.length v = Vector.length w
  <-> Vector.x v * Vector.x v + Vector.y v * Vector.y v
      = Vector.x w * Vector.x w + Vector.y w * Vector.y w.
Proof.
  rewrite <- !length_sqr.
  pose proof (length_nonneg v). pose proof (length_nonneg w).
  split; [intros ->; reflexivity | nra].
Qed.

Lemma length_scaleBy v (k : R) :
  0 <= k -> Vector.length (Vector.scaleBy v k) = k * Vector.length v.
Proof.
  intros Hk. destruct v as [vx vy]. unfold Vector.length, Vector.scaleBy; cbn.
  replace (vx * k * (vx * k) + vy * k * (vy * k))
    with (k * k * (vx * vx + vy * vy)) by ring.
  rewrite sqrt_mult by nra. rewrite sqrt_square by exact Hk. reflexivity.
Qed.

Lemma length_normalize v :
  Vector.length v <> 0 -> Vector.length (Vector.normalize v) = 1.
Proof.
  intros Hv. pose proof (length_pos v Hv) as Hpos.
  unfold Vector.normalize. rewrite length_scaleBy.
  - cbn [lit ndiv R_Number]. field. exact Hv.
  - cbn [lit ndiv R_Number]. apply Rlt_le, Rdiv_lt_0_compat; lra.
Qed.

(** X4: in exact arithmetic [subtract] undoes [add], and
    [v.add(v.scaleBy(-1))] is the zero vector. *)
Theorem add_inverse_exact v w :
  Vector.subtract (Vector.add v w) w = v
  /\ Vector.add v (Vector.scaleBy v (-1)) = Vector.new 0 0.
Proof.
  destruct v as [vx vy], w as [wx wy].
  unfold Vector.subtract, Vector.add, Vector.scaleBy; cbn.
  split; f_equal; ring.
Qed.

(** X5: in exact arithmetic, reflecting twice off the same unit normal
    gives the vector back. *)
Theorem reflect_involutive_exact v n :
  Vector.length n = 1 -> Vector.reflect (Vector.reflect v n) n = v.
Proof.
  intros Hn. rewrite !(reflect_unit_components _ _ Hn).
  pose proof (unit_sqr _ Hn) as Hs.
  destruct v as [vx vy], n as [nx ny].
  unfold Vector.dotProduct; cbn in *.
  set (d := vx * nx + vy * ny).
  assert (Hd : (vx - 2 * d * nx) * nx + (vy - 2 * d * ny) * ny = - d).
  { transitivity (d - 2 * d * (nx * nx + ny * ny)).
    - unfold d. ring.
    - rewrite Hs. ring. }
  rewrite Hd. f_equal; ring.
Qed.

Lemma reflect_involutive_exact_witness :
  Vector.reflect (Vector.reflect (Vector.new 1 (-1)) (Vector.new 0 1))
    (Vector.new 0 1)
  = (Vector.new 1 (-1) : Vector.t R).
Proof.
  apply reflect_involutive_exact.
  unfold Vector.length; cbn.
  replace (0 * 0 + 1 * 1) with 1 by ring. apply sqrt_1.
Defined.

(** the squared length after [reflect], for any normal that is not zero *)
Lemma reflect_sqr v n :
  Vector.length n <> 0 ->
  let r := Vector.reflect v n in
  let d := Vector.dotProduct v n in
  Vector.x r * Vector.x r + Vector.y r * Vector.y r
  = Vector.x v * Vector.x v + Vector.y v * Vector.y v
    + 4 * d * d * (1 - / Vector.length n).
Proof.
  intros Hn r d. subst r d. pose proof (length_sqr n) as Hsq.
  unfold Vector.reflect, Vector.projectOn, Vector.subtract, Vector.scaleBy.
  remember (Vector.length n) as L eqn:HL. clear HL.
  destruct v as [vx vy], n as [nx ny].
  unfold Vector.dotProduct; cbn in *.
  set (d := vx * nx + vy * ny).
  transitivity
    (vx * vx + vy * vy - 4 * d * d / L + 4 * d * d * (nx * nx + ny * ny) / (L * L)).
  - unfold d. field. exact Hn.
  - rewrite <- Hsq. field. exact Hn.
Qed.

(** X6: in exact arithmetic, for a normal [n] that is not zero,
    [v.reflect(n)] has the length of [v] exactly when [n] is a unit
    vector or [v] is perpendicular to [n]: off any other normal the
    speed changes. *)
Theorem reflect_length_iff_exact v n :
  Vector.length n <> 0 ->
  Vector.length (Vector.reflect v n) = Vector.length v
  <-> Vector.dotProduct v n = 0 \/ Vector.length n = 1.
Proof.
  intros Hn. rewrite length_eq_iff.
  pose proof (reflect_sqr v n Hn) as Hr. cbv zeta in Hr. rewrite Hr.
  pose proof (length_pos n Hn) as Hpos.
  set (d := Vector.dotProduct v n). set (L := Vector.length n) in *.
  split.
  - intros Heq.
    assert (Hz : 4 * d * d * (1 - / L) = 0) by lra.
    apply Rmult_integral in Hz as [Hz|Hz].
    + left. nra.
    + right. assert (/ L = 1) by lra.
      rewrite <- (Rinv_inv L). rewrite H. apply Rinv_1.
  - intros [Hd|HL].
    + rewrite Hd. ring.
    + rewrite HL, Rinv_1. ring.
Qed.

Lemma reflect_length_iff_exact_witness :
  Vector.length (Vector.reflect (Vector.new 3 4) (Vector.new 0 2))
  = Vector.length (Vector.new 3 4 : Vector.t R)
  <-> Vector.dotProduct (Vector.new 3 4 : Vector.t R) (Vector.new 0 2) = 0
      \/ Vector.length (Vector.new 0 2 : Vector.t R) = 1.
Proof.
  apply reflect_length_iff_exact.
  unfold Vector.length; cbn.
  replace (0 * 0 + 2 * 2) with (2 * 2) by ring.
  rewrite sqrt_square; lra.
Defined.

(** X7: in exact arithmetic, projecting on a unit vector is a
    projection: doing it twice changes nothing, and what it takes away
    from [v] is perpendicular to [n]. *)
Theorem projectOn_unit_exact v n :
  Vector.length n = 1 ->
  Vector.projectOn (Vector.projectOn v n) n = Vector.projectOn v n
  /\ Vector.dotProduct (Vector.subtract v (Vector.projectOn v n)) n = 0.
Proof.
  intros Hn. rewrite !(projectOn_unit _ _ Hn).
  pose proof (unit_sqr _ Hn) as Hs.
  destruct v as [vx vy], n as [nx ny].
  unfold Vector.dotProduct, Vector.subtract, Vector.scaleBy; cbn in *.
  set (d := vx * nx + vy * ny).
  assert (Hd : nx * d * nx + ny * d * ny = d).
  { transitivity (d * (nx * nx + ny * ny)); [ring | rewrite Hs; ring]. }
  split.
  - rewrite Hd. reflexivity.
  - transitivity (d - (nx * d * nx + ny * d * ny)); [unfold d; ring|].
    rewrite Hd. ring.
Qed.

Lemma projectOn_unit_exact_witness :
  Vector.projectOn (Vector.projectOn (Vector.new 3 4) (Vector.new 0 1))
    (Vector.new 0 1)
  = Vector.projectOn (Vector.new 3 4 : Vector.t R) (Vector.new 0 1).
Proof.
  refine (proj1 (projectOn_unit_exact _ _ _)).
  unfold Vector.length; cbn.
  replace (0 * 0 + 1 * 1) with 1 by ring. apply sqrt_1.
Defined.



(** X9: in exact arithmetic, [normalize] depends on the direction only
    (scaling by a positive factor first changes nothing) and normalizing
    twice is normalizing once, for vectors of non-zero length. *)
Theorem normalize_direction_exact v (k : R) :
  Vector.length v <> 0 -> 0 < k ->
  Vector.normalize (Vector.scaleBy v k) = Vector.normalize v
  /\ Vector.normalize (Vector.normalize v) = Vector.normalize v.
Proof.
  intros Hv Hk. split.
  - unfold Vector.normalize at 1. rewrite length_scaleBy by lra.
    unfold Vector.normalize.
    remember (Vector.length v) as L eqn:HL. clear HL.
    destruct v as [vx vy]. unfold Vector.scaleBy; cbn.
    f_equal; field; lra.
  - unfold Vector.normalize at 1. rewrite (length_normalize v Hv).
    destruct (Vector.normalize v) as [ux uy]. unfold Vector.scaleBy; cbn.
    f_equal; field.
Qed.

Lemma normalize_direction_exact_witness :
  Vector.normalize (Vector.scaleBy (Vector.new 3 4) 2)
  = Vector.normalize (Vector.new 3 4 : Vector.t R).
Proof.
  refine (proj1 (normalize_direction_exact _ 2 _ _)); [|lra].
  unfold Vector.length; cbn.
  replace (3 * 3 + 4 * 4) with (5 * 5) by ring.
  rewrite sqrt_square; lra.
Defined.

(** X10: in exact arithmetic [rotate] is a rigid motion, whatever
    [toRadians] is: it keeps lengths, and it keeps the dot and the cross
    product of two vectors rotated alike. *)
Theorem rotate_rigid_exact (toRadians : R -> R) v w (degrees : R) :
  Vector.length (Vector.rotate toRadians v degrees) = Vector.length v
  /\ Vector.dotProduct (Vector.rotate toRadians v degrees)
       (Vector.rotate toRadians w degrees) = Vector.dotProduct v w
  /\ Vector.crossProduct (Vector.rotate toRadians v degrees)
       (Vector.rotate toRadians w degrees) = Vector.crossProduct v w.
Proof.
  rewrite length_eq_iff.
  destruct v as [vx vy], w as [wx wy].
  unfold Vector.rotate, Vector.dotProduct, Vector.crossProduct; cbn.
  pose proof (sin2_cos2 (toRadians degrees)) as Hcs. unfold Rsqr in Hcs.
  set (c := cos (toRadians degrees)) in *.
  set (s := sin (toRadians degrees)) in *.
  repeat split.
  - transitivity ((vx * vx + vy * vy) * (s * s + c * c)); [ring|].
    rewrite Hcs. ring.
  - transitivity ((vx * wx + vy * wy) * (s * s + c * c)); [ring|].
    rewrite Hcs. ring.
  - transitivity ((vx * wy - wx * vy) * (s * s + c * c)); [ring|].
    rewrite Hcs. ring.
Qed.

(** X11: in exact arithmetic, if [toRadians] is additive then rotations
    add up, and a rotation by zero degrees changes nothing. *)
Theorem rotate_rotate_exact (toRadians : R -> R) v (a b : R) :
  (forall p q, toRadians (p + q) = toRadians p + toRadians q) ->
  Vector.rotate toRadians (Vector.rotate toRadians v a) b
  = Vector.rotate toRadians v (a + b)
  /\ Vector.rotate toRadians v 0 = v.
Proof.
  intros Hadd. split.
  - destruct v as [vx vy]. unfold Vector.rotate; cbn.
    rewrite Hadd, cos_plus, sin_plus. f_equal; ring.
  - assert (H0 : toRadians 0 = 0).
    { pose proof (Hadd 0 0) as H0. rewrite Rplus_0_r in H0. lra. }
    destruct v as [vx vy]. unfold Vector.rotate; cbn.
    rewrite H0, cos_0, sin_0. f_equal; ring.
Qed.

Lemma rotate_rotate_exact_witness :
  Vector.rotate Demo.toRadians
    (Vector.rotate Demo.toRadians (Vector.new 1 0) 30) 60
  = Vector.rotate Demo.toRadians (Vector.new 1 0) (30 + 60).
Proof.
  refine (proj1 (rotate_rotate_exact _ _ _ _ _)).
  intros p q. unfold Demo.toRadians. field.
Defined.
End VectorExactLaws.

(** ** The stored level *)

Section StoredLevel.
Import Scene.

Lemma digit_pretty_N_char (d : N) :
  (d < 10)%N -> digit (pretty_N_char d) = Some d.
Proof.
  intros Hd.
  assert (d = 0 \/ d = 1 \/ d = 2 \/ d = 3 \/ d = 4 \/ d = 5 \/ d = 6
          \/ d = 7 \/ d = 8 \/ d = 9)%N as Hcases by lia.
  repeat (destruct Hcases as [->|Hcases]; [reflexivity|]).
  subst d. reflexivity.
Qed.

(** the digits of a positive number, read back: [k] is their count *)
Lemma parse_digits_pretty_N_go (n : N) :
  (0 < n)%N ->
  exists k : N, forall (read : option N) (s : string),
    parse_digits read (pretty_N_go n s)
    = parse_digits (Some (default 0 read * 10 ^ k + n)%N) s.
Proof.
  induction (N.lt_wf_0 n) as [n _ IH]. intros Hn.
  assert (Hd := digit_pretty_N_char (n `mod` 10)%N
                  ltac:(apply N.mod_lt; discriminate)).
  pose proof (N.div_mod n 10 ltac:(discriminate)) as Hdm.
  destruct (N.eq_dec (n `div` 10)%N 0%N) as [H0|H0].
  - exists 1%N. intros read s.
    rewrite pretty_N_go_step by exact Hn. rewrite H0, pretty_N_go_0.
    cbn [parse_digits]. rewrite Hd. do 2 f_equal.
    rewrite N.pow_1_r. rewrite H0 in Hdm.
    clear IH H0 Hd Hn.
    generalize dependent (n `mod` 10)%N. intros m Hm.
    generalize (default 0%N read). intros r. lia.
  - destruct (IH (n `div` 10)%N) as [k Hk].
    { apply N.div_lt; [exact Hn | reflexivity]. }
    { apply N.neq_0_lt_0. exact H0. }
    exists (k + 1)%N. intros read s.
    rewrite pretty_N_go_step by exact Hn. rewrite Hk.
    cbn [parse_digits]. rewrite Hd. cbn [from_option]. unfold Datatypes.id.
    do 2 f_equal. rewrite N.pow_add_r, N.pow_1_r.
    clear IH Hk H0 Hd Hn.
    generalize dependent (n `mod` 10)%N. intros m.
    generalize (n `div` 10)%N (default 0%N read) (10 ^ k)%N.
    intros q r t Hm. nia.
Qed.

(** a positive number is written with a digit first *)
Lemma pretty_N_go_head (n : N) (s : string) :
  (0 < n)%N ->
  exists c rest d, pretty_N_go n s = String c rest /\ digit c = Some d.
Proof.
  revert s. induction (N.lt_wf_0 n) as [n _ IH]. intros s Hn.
  rewrite pretty_N_go_step by exact Hn.
  destruct (N.eq_dec (n `div` 10)%N 0%N) as [H0|H0].
  - rewrite H0, pretty_N_go_0. eexists _, _, _. split; [reflexivity|].
    apply digit_pretty_N_char. apply N.mod_lt. discriminate.
  - apply IH; [apply N.div_lt; [exact Hn | reflexivity]|].
    apply N.neq_0_lt_0. exact H0.
Qed.

(** a string that begins with a digit has neither space nor sign to skip *)
Lemma parseInt_digit_head (c : ascii) (rest : string) (d : N) :
  digit c = Some d ->
  parseInt (String c rest)
  = match parse_digits None (String c rest) with
    | Some n => Int (1 * Z.of_N n)
    | None => NaN
    end.
Proof.
  intros Hd.
  destruct c as [[] [] [] [] [] [] [] []]; vm_compute in Hd;
    try discriminate Hd; reflexivity.
Qed.

Lemma parseInt_pretty_N (n : N) :
  (0 < n)%N -> parseInt (pretty_N_go n "") = Int (Z.of_N n).
Proof.
  intros Hn.
  destruct (pretty_N_go_head n "" Hn) as (c & rest & d & E & Hd).
  destruct (parse_digits_pretty_N_go n Hn) as [k Hk].
  rewrite E, (parseInt_digit_head _ _ _ Hd), <- E, Hk.
  cbn [parse_digits from_option]. unfold Datatypes.id. f_equal. lia.
Qed.

(** [parseInt(String(n), 10)] is [n] *)
Lemma parseInt_pretty (n : Z) : parseInt (pretty n) = Int n.
Proof.
  destruct n as [|p|p].
  - reflexivity.
  - change (pretty (Z.pos p)) with (pretty_N_go (N.pos p) "").
    apply (parseInt_pretty_N (N.pos p)). reflexivity.
  - change (pretty (Z.neg p)) with (String "-" (pretty_N_go (N.pos p) "")).
    destruct (pretty_N_go_head (N.pos p) "" eq_refl) as (c & rest & d & E & Hd).
    pose proof (parseInt_pretty_N (N.pos p) eq_refl) as Hp.
    rewrite E, (parseInt_digit_head _ _ _ Hd) in Hp.
    unfold parseInt. cbn [skip_white_space].
    change (is_white_space "-") with false. cbv iota.
    rewrite E. destruct (parse_digits None (String c rest)) as [m|];
      [|discriminate Hp].
    injection Hp as Hp. f_equal. lia.
Qed.

(** what [getInitialLevel] makes of a stored decimal *)
Lemma getInitialLevel_pretty (n : Z) (w : World) :
  localStorage w !! "level" = Some (pretty n) ->
  getInitialLevel w = Some (Int n, w).
Proof.
  intros Hs. unfold getInitialLevel, bind, localStorage_getItem, ret.
  rewrite Hs. pose proof (parseInt_pretty n) as Hp.
  destruct (pretty n) as [|c rest]; [discriminate Hp|].
  rewrite Hp. reflexivity.
Qed.

(** X20: what [localStorage.setItem('level', n)] stores,
    [getInitialLevel] reads back as [n], for every integer [n]: the
    decimal string written is parsed to the number it came from. *)
Theorem setItem_getInitialLevel (n : Z) (w : World) :
  exists w',
    localStorage_setItem "level" n w = Some (tt, w')
    /\ getInitialLevel w' = Some (Int n, w').
Proof.
  eexists. split; [reflexivity|].
  apply getInitialLevel_pretty. cbn [localStorage]. apply lookup_insert_eq.
Qed.

(** X21: with no level in the store, or with the empty string there,
    the initial level is 0. *)
Theorem getInitialLevel_default (w : World) :
  localStorage w !! "level" = None \/ localStorage w !! "level" = Some "" ->
  getInitialLevel w = Some (Int 0, w).
Proof.
  intros [Hs|Hs]; unfold getInitialLevel, bind, localStorage_getItem, ret;
    rewrite Hs; reflexivity.
Qed.
End StoredLevel.

(** ** The reducer, action by action *)

Section SceneLaws.
Import Scene.
Context {num : Type} `{Number num} {Block Paddle Ball Level : Type}.
Variable LEVELS : list Level.
Variable getNewGameState :
  Game num Block Paddle Ball -> option Movement -> Z ->
  Game num Block Paddle Ball.
Variable getGameStateFromLevel :
  option Level -> option (Game num Block Paddle Ball).

Local Abbreviation reducer' :=
  (reducer LEVELS getNewGameState getGameStateFromLevel).
Local Abbreviation TICK' :=
  (HANDLER_TICK LEVELS getNewGameState getGameStateFromLevel).
Local Abbreviation State' := (State num Block Paddle Ball).

(** which handler an action reaches *)
Lemma reducer_cases (state : State') (action : Action num) :
  (type action = ACTION.CONTAINER_SIZE_CHANGE
   /\ reducer' state action
      = HANDLER_CONTAINER_SIZE_CHANGE state (payload action))
  \/ (type action = ACTION.KEY_DOWN
      /\ reducer' state action = HANDLER_KEY_DOWN state (payload action))
  \/ (type action = ACTION.KEY_UP
      /\ reducer' state action = HANDLER_KEY_UP state (payload action))
  \/ (type action = ACTION.TICK
      /\ reducer' state action = TICK' state (payload action))
  \/ reducer' state action = ret state
  \/ reducer' state action = throw.
Proof.
  unfold reducer, HANDLER_at.
  destruct (decide (type action = ACTION.CONTAINER_SIZE_CHANGE)) as [->|N1];
    [left; split; reflexivity|].
  destruct (decide (type action = ACTION.KEY_DOWN)) as [->|N2];
    [right; left; split; reflexivity|].
  destruct (decide (type action = ACTION.KEY_UP)) as [->|N3];
    [right; right; left; split; reflexivity|].
  destruct (decide (type action = ACTION.TICK)) as [->|N4];
    [right; right; right; left; split; reflexivity|].
  do 4 right. unfold HANDLER.
  rewrite !lookup_insert_ne by congruence.
  rewrite lookup_singleton_ne by congruence.
  destruct (Object_prototype !! type action) as [[| |]|]; auto.
Qed.

(** what a handler can return, as equations a proof can split on *)
Lemma KEY_DOWN_cases (state : State') key w :
  exists m, HANDLER_KEY_DOWN state key w
            = Some (set_movement m state, w)
            \/ HANDLER_KEY_DOWN state key w = Some (state, w).
Proof.
  unfold HANDLER_KEY_DOWN.
  destruct (includes MOVEMENT_KEYS.LEFT key);
    [exists (Some LEFT); left; reflexivity|].
  destruct (includes MOVEMENT_KEYS.RIGHT key);
    [exists (Some RIGHT); left; reflexivity|].
  exists None. right. reflexivity.
Qed.

Lemma KEY_UP_cases (state : State') key w :
  HANDLER_KEY_UP state key w
  = Some
      (if is_STOP_KEY key then
         match stopTime state with
         | Some t =>
             if (t =? 0)%Z
             then set_stopTime (Some (clock w)) (set_movement None state)
             else set_time (time state + clock w - t)
                    (set_stopTime None (set_movement None state))
         | None => set_stopTime (Some (clock w)) (set_movement None state)
         end
       else set_movement None state, w).
Proof.
  unfold HANDLER_KEY_UP, truthy.
  destruct (is_STOP_KEY key); [|reflexivity].
  destruct (stopTime state) as [t|]; [|reflexivity].
  destruct (t =? 0)%Z; reflexivity.
Qed.

Lemma TICK_cases (state : State') p w state' w' :
  TICK' state p w = Some (state', w') ->
  let newGame :=
    getNewGameState (game state) (movement state) (clock w - time state) in
  (truthy (stopTime state) = true /\ state' = state /\ w' = w)
  \/ (truthy (stopTime state) = false /\ (lives newGame < 1)%Z
      /\ w' = w
      /\ exists g,
          getGameStateFromLevel (LEVELS_at LEVELS (level state)) = Some g
          /\ state' = set_game g (set_time (clock w) state))
  \/ (truthy (stopTime state) = false /\ (1 <= lives newGame)%Z
      /\ blocks newGame = []
      /\ exists g level',
          getGameStateFromLevel (LEVELS_at LEVELS (level state)) = Some g
          /\ level' = (if (level state =? Z.of_nat (length LEVELS))%Z
                       then level state else (level state + 1)%Z)
          /\ w' = mkWorld (clock w)
                    (<["level" := pretty level']> (localStorage w))
          /\ state' = set_projectors
                        (getProjectors (containerSize state) (size g))
                        (set_game g (set_level level'
                                       (set_time (clock w) state))))
  \/ (truthy (stopTime state) = false /\ (1 <= lives newGame)%Z
      /\ blocks newGame <> []
      /\ w' = w
      /\ state' = set_game newGame (set_time (clock w) state)).
Proof.
  intros Hrun newGame. revert Hrun. unfold HANDLER_TICK.
  destruct (truthy (stopTime state)) eqn:Hp.
  { intros [= <- <-]. left. auto. }
  unfold bind, Date_now. fold newGame.
  destruct (Z.ltb_spec (lives newGame) 1) as [Hl|Hl].
  { unfold call.
    destruct (getGameStateFromLevel _) as [g|] eqn:Hg; [|discriminate].
    intros [= <- <-]. right. left. eauto 10. }
  destruct (blocks newGame) as [|b bs] eqn:Hb; cbn [length Nat.ltb Nat.leb].
  { unfold localStorage_setItem, call.
    destruct (getGameStateFromLevel _) as [g|] eqn:Hg; [|discriminate].
    intros [= <- <-]. right. right. left. eauto 15. }
  intros [= <- <-]. do 3 right. repeat split; auto; discriminate.
Qed.
Local Abbreviation KEY_DOWN' key := (mkAction ACTION.KEY_DOWN key).
Local Abbreviation KEY_UP' key := (mkAction ACTION.KEY_UP key).
Local Abbreviation STOP' := (mkAction ACTION.KEY_UP (key_code STOP_KEY)).
Local Abbreviation RESIZE' c :=
  (mkAction ACTION.CONTAINER_SIZE_CHANGE (container_size c)).

Lemma reducer_KEY_DOWN' (state : State') key :
  reducer' state (KEY_DOWN' key) = HANDLER_KEY_DOWN state key.
Proof. reflexivity. Qed.

Lemma reducer_KEY_UP' (state : State') key :
  reducer' state (KEY_UP' key) = HANDLER_KEY_UP state key.
Proof. reflexivity. Qed.

Lemma reducer_TICK' (state : State') p :
  reducer' state (mkAction ACTION.TICK p) = TICK' state p.
Proof. reflexivity. Qed.

Lemma reducer_RESIZE' (state : State') c :
  reducer' state (RESIZE' c)
  = ret (set_projectors (getProjectors c (size (game state)))
           (set_containerSize c state)).
Proof. reflexivity. Qed.

(** X12: releasing any key but the stop key ends the movement, whichever
    key set it: after a KEY_DOWN of any key and a KEY_UP of any other
    than 32, the state is the one before with [movement] undefined. *)
Theorem key_down_key_up (state : State') down up w1 w2 :
  is_STOP_KEY up = false ->
  exists pressed,
    reducer' state (KEY_DOWN' down) w1 = Some (pressed, w1)
    /\ reducer' pressed (KEY_UP' up) w2
       = Some (set_movement None state, w2).
Proof.
  intros Hup. rewrite reducer_KEY_DOWN'.
  destruct (KEY_DOWN_cases state down w1) as [m [E|E]]; rewrite E;
    eexists; (split; [reflexivity|]);
    rewrite reducer_KEY_UP', KEY_UP_cases, Hup; reflexivity.
Qed.

(** X13: releasing the stop key while the game runs, at a clock other
    than 0, pauses it: [stopTime] is the clock's time, game and [time]
    are kept, and every TICK from then on returns the paused state. *)
Theorem pause_stops_ticks (state : State') w :
  truthy (stopTime state) = false -> clock w <> 0%Z ->
  exists paused,
    reducer' state STOP' w = Some (paused, w)
    /\ stopTime paused = Some (clock w)
    /\ game paused = game state
    /\ time paused = time state
    /\ forall p w', reducer' paused (mkAction ACTION.TICK p) w'
                    = Some (paused, w').
Proof.
  intros Hrun Hnow. rewrite reducer_KEY_UP', KEY_UP_cases.
  cbn [is_STOP_KEY]. rewrite Z.eqb_refl.
  assert (Hp : forall s : State',
             stopTime s = Some (clock w) ->
             forall p w', reducer' s (mkAction ACTION.TICK p) w' = Some (s, w')).
  { intros s Hs p w'. rewrite reducer_TICK'. unfold HANDLER_TICK, truthy.
    rewrite Hs. destruct (Z.eqb_spec (clock w) 0); [contradiction|reflexivity]. }
  unfold truthy in Hrun.
  destruct (stopTime state) as [t|] eqn:Hst.
  - destruct (Z.eqb_spec t 0) as [->|]; [|discriminate].
    eexists. split; [reflexivity|]. repeat split. apply Hp. reflexivity.
  - eexists. split; [reflexivity|]. repeat split. apply Hp. reflexivity.
Qed.

(** X14: a pause and a resume (two releases of the stop key, the first at
    a clock other than 0) give the state back with [movement] undefined,
    [stopTime] undefined and [time] moved on by the time between the two. *)
Theorem pause_resume (state : State') w1 w2 :
  truthy (stopTime state) = false -> clock w1 <> 0%Z ->
  exists paused,
    reducer' state STOP' w1 = Some (paused, w1)
    /\ reducer' paused STOP' w2
       = Some (resumed state (clock w1) (clock w2), w2).
Proof.
  intros Hrun Hnow. rewrite reducer_KEY_UP', KEY_UP_cases.
  cbn [is_STOP_KEY]. rewrite Z.eqb_refl.
  assert (Hr : reducer' (set_stopTime (Some (clock w1))
                           (set_movement None state)) STOP' w2
               = Some (resumed state (clock w1) (clock w2), w2)).
  { rewrite reducer_KEY_UP', KEY_UP_cases. cbn [is_STOP_KEY].
    rewrite Z.eqb_refl. cbn [stopTime set_stopTime].
    destruct (Z.eqb_spec (clock w1) 0); [contradiction|reflexivity]. }
  unfold truthy in Hrun.
  destruct (stopTime state) as [t|] eqn:Hst.
  - destruct (Z.eqb_spec t 0) as [->|]; [|discriminate].
    eexists. split; [reflexivity|exact Hr].
  - eexists. split; [reflexivity|exact Hr].
Qed.

(** X15: but for the movement, which its KEY_UP clears, a pause is
    invisible to the simulation.  The TICK at clock [t3] after a pause
    from [t1] to [t2] passes [getNewGameState] the elapsed time, and
    returns the game, level and store, of the TICK that would have come
    at [t3 - (t2 - t1)] to the state before the pause with its
    [movement] undefined. *)
Theorem tick_after_pause (state : State') (t1 t2 : Z) p w3 :
  stopTime state = None ->
  reducer' (resumed state t1 t2) (mkAction ACTION.TICK p) w3
  = match reducer' (set_movement None state) (mkAction ACTION.TICK p)
            (mkWorld (clock w3 - (t2 - t1)) (localStorage w3)) with
    | Some (state', w') =>
        Some (set_time (clock w3) state',
              mkWorld (clock w3) (localStorage w'))
    | None => None
    end.
Proof.
  intros Hst. rewrite !reducer_TICK'. unfold HANDLER_TICK, resumed.
  cbn [stopTime set_movement truthy time game movement level containerSize].
  rewrite Hst. cbn [truthy]. unfold bind, Date_now. cbn [clock].
  replace (clock w3 - (time state + t2 - t1))%Z
    with (clock w3 - (t2 - t1) - time state)%Z by lia.
  destruct w3 as [t3 store]. cbn [clock localStorage].
  destruct (lives _ <? 1)%Z.
  { unfold call. destruct (getGameStateFromLevel _); [|reflexivity].
    unfold ret, set_game, set_time, set_movement; cbn.
    rewrite Hst. reflexivity. }
  destruct (length (blocks _) <? 1)%nat.
  { unfold localStorage_setItem, call. cbn [clock localStorage].
    destruct (getGameStateFromLevel _); [|reflexivity].
    unfold ret, set_projectors, set_game, set_level, set_time, set_movement;
      cbn.
    rewrite Hst. reflexivity. }
  unfold ret, set_game, set_time, set_movement; cbn.
  rewrite Hst. reflexivity.
Qed.

(** X16: of two CONTAINER_SIZE_CHANGE actions the last one wins, and a
    size change touches nothing but the container size and the two
    projectors. *)
Theorem resize_resize (state : State') c1 c2 w1 w2 :
  exists resized,
    reducer' state (RESIZE' c1) w1 = Some (resized, w1)
    /\ reducer' resized (RESIZE' c2) w2
       = reducer LEVELS getNewGameState getGameStateFromLevel state
           (mkAction ACTION.CONTAINER_SIZE_CHANGE (container_size c2)) w2
    /\ level resized = level state
    /\ game resized = game state
    /\ time resized = time state
    /\ stopTime resized = stopTime state
    /\ movement resized = movement state.
Proof.
  rewrite !reducer_RESIZE'. eexists. split; [reflexivity|].
  rewrite reducer_RESIZE'. repeat split.
Qed.
(** every outcome of the reducer, handler by handler *)
Ltac reducer_outcomes state action w Hred :=
  let Hty := fresh "Hty" in
  let E := fresh "E" in
  destruct (reducer_cases state action)
    as [[Hty E]|[[Hty E]|[[Hty E]|[[Hty E]|[E|E]]]]];
  rewrite E in Hred; clear E;
  [ unfold HANDLER_CONTAINER_SIZE_CHANGE in Hred;
    destruct (payload action); try discriminate Hred
  | let m := fresh "m" in
    let E' := fresh "E" in
    destruct (KEY_DOWN_cases state (payload action) w) as [m [E'|E']];
    rewrite E' in Hred; clear E'
  | rewrite KEY_UP_cases in Hred
  | apply TICK_cases in Hred; cbv zeta in Hred
  |
  | discriminate Hred ];
  try (injection Hred as <- <-).

(** X17: the level index moves only on a TICK, by one step up, and only
    while it differs from [LEVELS.length]; so an index within
    0..LEVELS.length stays there -- the upper end, which names no level,
    included. *)
Theorem level_steps (state : State') action w state' w' :
  reducer' state action w = Some (state', w') ->
  (level state' = level state
   \/ (type action = ACTION.TICK
       /\ level state <> Z.of_nat (length LEVELS)
       /\ level state' = (level state + 1)%Z))
  /\ ((0 <= level state <= Z.of_nat (length LEVELS))%Z ->
      (0 <= level state' <= Z.of_nat (length LEVELS))%Z).
Proof.
  intros Hred.
  assert (Hstep : level state' = level state
                  \/ (type action = ACTION.TICK
                      /\ level state <> Z.of_nat (length LEVELS)
                      /\ level state' = (level state + 1)%Z)).
  { reducer_outcomes state action w Hred; try (left; reflexivity).
    - left. destruct (is_STOP_KEY _); [|reflexivity].
      destruct (stopTime state) as [t|]; [destruct (t =? 0)%Z|]; reflexivity.
    - destruct Hred as [(_ & -> & _)|[(_ & _ & _ & g & _ & ->)
        |[(_ & _ & _ & g & lv & _ & -> & _ & ->)|(_ & _ & _ & _ & ->)]]];
        try (left; reflexivity).
      cbn [level set_projectors set_game set_level].
      destruct (Z.eqb_spec (level state) (Z.of_nat (length LEVELS)));
        [left; reflexivity | right; auto]. }
  split; [exact Hstep|]. intros Hb.
  destruct Hstep as [->|(_ & Hne & ->)]; lia.
Qed.

(** X18: each field has its writers.  Only CONTAINER_SIZE_CHANGE changes
    the container size; only the key actions change [movement], and only
    KEY_UP [stopTime]; only TICK changes the game, the level and the
    store; and [time] stays under every action but TICK and KEY_UP. *)
Theorem field_writers (state : State') action w state' w' :
  reducer' state action w = Some (state', w') ->
  (type action <> ACTION.CONTAINER_SIZE_CHANGE ->
   containerSize state' = containerSize state)
  /\ (type action <> ACTION.KEY_DOWN -> type action <> ACTION.KEY_UP ->
      movement state' = movement state)
  /\ (type action <> ACTION.KEY_UP -> stopTime state' = stopTime state)
  /\ (type action <> ACTION.TICK ->
      game state' = game state /\ level state' = level state /\ w' = w)
  /\ (type action <> ACTION.TICK -> type action <> ACTION.KEY_UP ->
      time state' = time state).
Proof.
  intros Hred.
  reducer_outcomes state action w Hred;
    try (repeat split; intros; try reflexivity; congruence).
  - (* KEY_UP *)
    repeat split; intros; try congruence;
      destruct (is_STOP_KEY _); try reflexivity;
      destruct (stopTime state) as [t|]; try destruct (t =? 0)%Z;
      reflexivity.
  - (* TICK *)
    destruct Hred as [(_ & -> & ->)|[(_ & _ & -> & g & _ & ->)
      |[(_ & _ & _ & g & lv & _ & _ & -> & ->)|(_ & _ & _ & -> & ->)]]];
      repeat split; intros; try reflexivity; congruence.
Qed.

(** X19: the reducer never moves the clock and writes no key of the
    store but ["level"]; and when it does write, what it stores is the
    returned state's level, as a decimal string. *)
Theorem store_frame (state : State') action w state' w' :
  reducer LEVELS getNewGameState getGameStateFromLevel state action w
  = Some (state', w') ->
  clock w' = clock w
  /\ (forall key : string,
        key <> "level" -> localStorage w' !! key = localStorage w !! key)
  /\ (localStorage w' = localStorage w
      \/ localStorage w' !! "level" = Some (pretty (level state'))).
Proof.
  intros Hred.
  reducer_outcomes state action w Hred; try (repeat split; auto; fail).
  destruct Hred as [(_ & -> & ->)|[(_ & _ & -> & g & _ & ->)
    |[(_ & _ & _ & g & lv & _ & _ & -> & ->)|(_ & _ & _ & -> & ->)]]];
    try (repeat split; auto; fail).
  cbn [clock localStorage]. repeat split.
  - intros key Hkey. apply lookup_insert_ne. congruence.
  - right. apply lookup_insert_eq.
Qed.
(** what an action does to the store and to the level together *)
Lemma reducer_store (state : State') action w state' w' :
  reducer' state action w = Some (state', w') ->
  (localStorage w' = localStorage w /\ level state' = level state)
  \/ localStorage w' = <["level" := pretty (level state')]> (localStorage w).
Proof.
  intros Hred.
  reducer_outcomes state action w Hred; try (left; split; reflexivity).
  - left. split; [reflexivity|].
    destruct (is_STOP_KEY _); [|reflexivity].
    destruct (stopTime state) as [t|]; [destruct (t =? 0)%Z|]; reflexivity.
  - destruct Hred as [(_ & -> & ->)|[(_ & _ & -> & g & _ & ->)
      |[(_ & _ & _ & g & lv & _ & _ & -> & ->)|(_ & _ & _ & -> & ->)]]];
      try (left; split; reflexivity).
    right. reflexivity.
Qed.

(** X22: the state [getInitialState] returns is at the level the store
    parses to, holds the game of [LEVELS] at that level, is not paused,
    has no movement, and was last updated now; the world is untouched. *)
Theorem getInitialState_spec (c : Size num) w state0 w0 :
  getInitialState LEVELS getGameStateFromLevel c w = Some (state0, w0) ->
  w0 = w
  /\ getInitialLevel w = Some (Int (level state0), w)
  /\ getGameStateFromLevel (LEVELS_at LEVELS (level state0))
     = Some (game state0)
  /\ containerSize state0 = c
  /\ time state0 = clock w
  /\ stopTime state0 = None
  /\ movement state0 = None.
Proof.
  unfold getInitialState, bind.
  destruct (getInitialLevel w) as [[[|lv] w1]|] eqn:Hl; [| |discriminate].
  { unfold call. destruct (getGameStateFromLevel None); discriminate. }
  assert (w1 = w) as ->.
  { unfold getInitialLevel, bind, localStorage_getItem, ret in Hl.
    congruence. }
  unfold call.
  destruct (getGameStateFromLevel (LEVELS_at LEVELS lv)) as [g|] eqn:Hg;
    [|discriminate].
  unfold Date_now, ret. intros [= <- <-]. cbn. auto 10.
Qed.

(** X23: once the store parses to the state's level -- as it does after
    [getInitialState] -- it does so after every action: a reload finds
    the level index the session has reached. *)
Theorem stored_level_kept (state : State') action w state' w' :
  getInitialLevel w = Some (Int (level state), w) ->
  reducer' state action w = Some (state', w') ->
  getInitialLevel w' = Some (Int (level state'), w').
Proof.
  intros Hsync Hred.
  destruct (reducer_store _ _ _ _ _ Hred) as [[Hs Hl]|Hs].
  - rewrite Hl.
    unfold getInitialLevel, bind, localStorage_getItem, ret in *.
    rewrite Hs. congruence.
  - apply getInitialLevel_pretty. rewrite Hs. apply lookup_insert_eq.
Qed.

(** X24: clock readings stay in order.  If the last update is not in
    the future, and a running pause began between it and now, then so it
    is after every action, as long as the clock does not run backwards. *)
Theorem time_ok_kept (state : State') action w state' w' later :
  time_ok state w ->
  reducer' state action w = Some (state', w') ->
  (clock w' <= clock later)%Z ->
  time_ok state' later.
Proof.
  intros [Ht Hs] Hred Hlater. unfold time_ok.
  reducer_outcomes state action w Hred;
    try (split; [cbn; lia | intros t E Hne; cbn in E;
                            specialize (Hs t E Hne); cbn; lia]).
  - (* KEY_UP *)
    destruct (is_STOP_KEY _);
      [|split; [cbn; lia | intros t E Hne; cbn in E;
                           specialize (Hs t E Hne); cbn; lia]].
    destruct (stopTime state) as [t0|] eqn:Hst.
    + destruct (Z.eqb_spec t0 0) as [->|Hne0].
      * split; [cbn; lia | intros t [= <-] Hne; cbn; lia].
      * specialize (Hs t0 eq_refl Hne0).
        split; [cbn; lia | intros t E; discriminate E].
    + split; [cbn; lia | intros t [= <-] Hne; cbn; lia].
  - (* TICK *)
    assert (Hrun : truthy (stopTime state) = false ->
                   forall t, stopTime state = Some t -> t <> 0%Z -> False).
    { unfold truthy. intros Hf t E Hne. rewrite E in Hf.
      destruct (Z.eqb_spec t 0); [contradiction|discriminate]. }
    destruct Hred as [(_ & -> & ->)|[(Hf & _ & -> & g & _ & ->)
      |[(Hf & _ & _ & g & lv & _ & _ & -> & ->)|(Hf & _ & _ & -> & ->)]]].
    + split; [lia | intros t E Hne; specialize (Hs t E Hne); lia].
    + split; [cbn; lia|]. intros t E Hne. cbn in E.
      destruct (Hrun Hf t E Hne).
    + cbn [clock] in Hlater. split; [cbn; lia|]. intros t E Hne. cbn in E.
      destruct (Hrun Hf t E Hne).
    + split; [cbn; lia|]. intros t E Hne. cbn in E.
      destruct (Hrun Hf t E Hne).
Qed.
End SceneLaws.

(** ** Two step functions, and the projectors *)

Section SceneSteps.
Import Scene.
Context {num : Type} `{Number num} {Block Paddle Ball Level : Type}.
Variable LEVELS : list Level.
Variables step step' :
  Game num Block Paddle Ball -> option Movement -> Z ->
  Game num Block Paddle Ball.
Variable getGameStateFromLevel :
  option Level -> option (Game num Block Paddle Ball).

(** X25: while the clock readings are in order, the reducer asks
    [getNewGameState] for elapsed times that are not negative only: two
    step functions that agree on those give the same reducer. *)
Theorem elapsed_nonneg (state : State num Block Paddle Ball) action w :
  (forall game m elapsed,
      (0 <= elapsed)%Z -> step game m elapsed = step' game m elapsed) ->
  time_ok state w ->
  reducer LEVELS step getGameStateFromLevel state action w
  = reducer LEVELS step' getGameStateFromLevel state action w.
Proof.
  intros Hagree [Ht _]. destruct action as [ty p].
  destruct (decide (ty = ACTION.TICK)) as [->|N4].
  - rewrite !reducer_TICK. unfold HANDLER_TICK.
    destruct (truthy (stopTime state)); [reflexivity|].
    unfold bind, Date_now. rewrite Hagree by lia. reflexivity.
  - unfold reducer, HANDLER_at. cbn [type payload].
    destruct (decide (ty = ACTION.CONTAINER_SIZE_CHANGE))
      as [->|N1]; [reflexivity|].
    destruct (decide (ty = ACTION.KEY_DOWN)) as [->|N2]; [reflexivity|].
    destruct (decide (ty = ACTION.KEY_UP)) as [->|N3]; [reflexivity|].
    unfold HANDLER. rewrite !lookup_insert_ne by congruence.
    rewrite !lookup_singleton_ne by congruence. reflexivity.
Qed.
End SceneSteps.

Section ProjectorsExact.
Import Scene.
Local Open Scope R_scope.

(** X26: in exact arithmetic, for a game of positive width and height,
    the projected game fits the container -- neither side is longer --
    and fills it along one side; and [projectVector] scales both
    coordinates as [projectDistance] scales a distance. *)
Theorem projectors_fit (container game : Size R) :
  0 < width game -> 0 < height game ->
  let p := getProjectors container game in
  Projectors.projectDistance p (width game) <= width container
  /\ Projectors.projectDistance p (height game) <= height container
  /\ (Projectors.projectDistance p (width game) = width container
      \/ Projectors.projectDistance p (height game) = height container)
  /\ forall v,
      Projectors.projectVector p v
      = Vector.new (Projectors.projectDistance p (Vector.x v))
          (Projectors.projectDistance p (Vector.y v)).
Proof.
  intros Hw Hh p. subst p.
  destruct container as [cw ch], game as [gw gh].
  unfold getProjectors; cbn in *.
  assert (Ew : gw * (cw / gw) = cw) by (field; lra).
  assert (Eh : gh * (ch / gh) = ch) by (field; lra).
  unfold Rmin. destruct (Rle_dec (cw / gw) (ch / gh)) as [Hle|Hgt].
  - repeat split; [lra | nra | left; exact Ew].
  - repeat split; [nra | lra | right; exact Eh].
Qed.

Lemma projectors_fit_witness :
  let p := getProjectors (mkSize 600 400) (mkSize 300 100 : Size R) in
  Projectors.projectDistance p 300 <= 600
  /\ Projectors.projectDistance p 100 <= 400.
Proof.
  pose proof (projectors_fit (mkSize 600 400) (mkSize 300 100)
                ltac:(cbn; lra) ltac:(cbn; lra)) as Hfit.
  cbv zeta in Hfit. cbn [width height] in Hfit.
  cbv zeta. split; [exact (proj1 Hfit) | exact (proj1 (proj2 Hfit))].
Defined.
End ProjectorsExact.

(** ** The further properties at work *)

Section SceneLawsRuns.
Import Scene.

Lemma demo_tick_clears :
  Demo.reducer (Demo.playing 0) Demo.TICK (Demo.world 1016)
  = Some (Demo.cleared, Demo.stored 1016 "1").
Proof. vm_compute. reflexivity. Qed.

Lemma key_down_key_up_witness :
  exists pressed,
    Demo.reducer (Demo.playing 0) (Demo.KEY_DOWN 37) (Demo.world 1001)
    = Some (pressed, Demo.world 1001)
    /\ Demo.reducer pressed (Demo.KEY_UP 39) (Demo.world 1002)
       = Some (set_movement None (Demo.playing 0), Demo.world 1002).
Proof.
  exact (key_down_key_up Demo.LEVELS Demo.getNewGameState
           Demo.getGameStateFromLevel (Demo.playing 0) (key_code 37)
           (key_code 39) (Demo.world 1001) (Demo.world 1002) eq_refl).
Defined.

Lemma pause_stops_ticks_witness :
  exists paused,
    Demo.reducer (Demo.playing 0) (Demo.KEY_UP 32) (Demo.world 1016)
    = Some (paused, Demo.world 1016)
    /\ stopTime paused = Some 1016%Z
    /\ game paused = game (Demo.playing 0)
    /\ time paused = time (Demo.playing 0)
    /\ forall p w', Demo.reducer paused (mkAction ACTION.TICK p) w'
                    = Some (paused, w').
Proof.
  exact (pause_stops_ticks Demo.LEVELS Demo.getNewGameState
           Demo.getGameStateFromLevel (Demo.playing 0) (Demo.world 1016)
           eq_refl ltac:(discriminate)).
Defined.

Lemma pause_resume_witness :
  exists paused,
    Demo.reducer (Demo.playing 0) (Demo.KEY_UP 32) (Demo.world 1016)
    = Some (paused, Demo.world 1016)
    /\ Demo.reducer paused (Demo.KEY_UP 32) (Demo.world 5000)
       = Some (resumed (Demo.playing 0) 1016 5000, Demo.world 5000).
Proof.
  exact (pause_resume Demo.LEVELS Demo.getNewGameState
           Demo.getGameStateFromLevel (Demo.playing 0) (Demo.world 1016)
           (Demo.world 5000) eq_refl ltac:(discriminate)).
Defined.

Lemma tick_after_pause_witness :
  Demo.reducer (resumed (Demo.playing 0) 1016 5000) Demo.TICK
    (Demo.world 5016)
  = match Demo.reducer (set_movement None (Demo.playing 0)) Demo.TICK
            (Demo.world (5016 - (5000 - 1016))) with
    | Some (state', w') =>
        Some (set_time 5016 state', mkWorld 5016 (localStorage w'))
    | None => None
    end.
Proof.
  exact (tick_after_pause Demo.LEVELS Demo.getNewGameState
           Demo.getGameStateFromLevel (Demo.playing 0) 1016 5000 undefined
           (Demo.world 5016) eq_refl).
Defined.

Lemma level_steps_witness :
  (level Demo.cleared = level (Demo.playing 0)
   \/ (type Demo.TICK = ACTION.TICK
       /\ level (Demo.playing 0) <> Z.of_nat (length Demo.LEVELS)
       /\ level Demo.cleared = (level (Demo.playing 0) + 1)%Z))
  /\ ((0 <= level (Demo.playing 0) <= Z.of_nat (length Demo.LEVELS))%Z ->
      (0 <= level Demo.cleared <= Z.of_nat (length Demo.LEVELS))%Z).
Proof.
  exact (level_steps Demo.LEVELS Demo.getNewGameState
           Demo.getGameStateFromLevel _ _ _ _ _ demo_tick_clears).
Defined.

Lemma field_writers_witness :
  stopTime Demo.cleared = stopTime (Demo.playing 0)
  /\ containerSize Demo.cleared = containerSize (Demo.playing 0).
Proof.
  destruct (field_writers Demo.LEVELS Demo.getNewGameState
              Demo.getGameStateFromLevel _ _ _ _ _ demo_tick_clears)
    as (Hc & _ & Hs & _).
  split; [apply Hs | apply Hc]; discriminate.
Defined.

Lemma store_frame_witness :
  clock (Demo.stored 1016 "1") = clock (Demo.world 1016)
  /\ localStorage (Demo.stored 1016 "1") !! "level"
     = Some (pretty (level Demo.cleared)).
Proof.
  destruct (store_frame Demo.LEVELS Demo.getNewGameState
              Demo.getGameStateFromLevel _ _ _ _ _ demo_tick_clears)
    as (Hc & _ & _).
  split; [exact Hc | reflexivity].
Defined.

Lemma getInitialLevel_default_witness :
  getInitialLevel (Demo.world 7) = Some (Int 0, Demo.world 7).
Proof.
  exact (getInitialLevel_default (Demo.world 7) (or_introl eq_refl)).
Defined.

Lemma getInitialState_spec_witness :
  getInitialLevel (Demo.stored 7 "1")
  = Some (Int (level Demo.cleared), Demo.stored 7 "1")
  /\ Demo.getGameStateFromLevel (LEVELS_at Demo.LEVELS 1)
     = Some Demo.game1.
Proof.
  assert (Hinit :
    getInitialState Demo.LEVELS Demo.getGameStateFromLevel Demo.screen
      (Demo.stored 7 "1")
    = Some (let p := getProjectors Demo.screen Demo.board in
            mkState 1 Demo.game1 Demo.screen
              (Projectors.projectDistance p) (Projectors.projectVector p)
              7 None None, Demo.stored 7 "1"))
    by (vm_compute; reflexivity).
  destruct (getInitialState_spec Demo.LEVELS Demo.getGameStateFromLevel
              _ _ _ _ Hinit) as (_ & Hl & Hg & _).
  split; [exact Hl | exact Hg].
Defined.

Lemma stored_level_kept_witness :
  getInitialLevel (Demo.stored 1016 "1")
  = Some (Int (level Demo.cleared), Demo.stored 1016 "1").
Proof.
  exact (stored_level_kept Demo.LEVELS Demo.getNewGameState
           Demo.getGameStateFromLevel (Demo.playing 0) Demo.TICK
           (Demo.world 1016) Demo.cleared (Demo.stored 1016 "1")
           eq_refl demo_tick_clears).
Defined.

Lemma time_ok_kept_witness :
  time_ok Demo.cleared (Demo.world 1032).
Proof.
  refine (time_ok_kept Demo.LEVELS Demo.getNewGameState
            Demo.getGameStateFromLevel _ _ _ _ _ (Demo.world 1032)
            _ demo_tick_clears _).
  - split; [cbn; lia | intros t E; discriminate E].
  - cbn. lia.
Defined.

Lemma elapsed_nonneg_witness :
  Scene.reducer Demo.LEVELS Demo.getNewGameState Demo.getGameStateFromLevel
    (Demo.playing 0) Demo.TICK (Demo.world 1016)
  = Scene.reducer Demo.LEVELS Demo.getNewGameState'
      Demo.getGameStateFromLevel (Demo.playing 0) Demo.TICK
      (Demo.world 1016).
Proof.
  apply elapsed_nonneg.
  - intros game m elapsed Hge. unfold Demo.getNewGameState'.
    destruct (Z.ltb_spec elapsed 0); [lia|reflexivity].
  - split; [cbn; lia | intros t E; discriminate E].
Defined.
End SceneLawsRuns.

